(** * Verification of the tree-sitter grammar evaluation harness

    A shallow embedding of [src/evaluator.py]: the corpus scanner
    ([find_files]), the oracle invoker ([test_file]), the batch loop and
    aggregation of [process_directory], the statistics printer
    ([print_stats]), the report writer ([save_results]) and [main].

    Python dictionaries that are used as open maps (the statistics
    dictionaries, which [process_directory] returns either filled or as the
    empty dictionary) are finite maps from keys to Python values; the
    dictionaries with a fixed shape (task results, report records) are
    records.  Console output and the report file are events appended to a
    trace; Python exceptions are the left summand of the result. *)

From stdpp Require Import gmap strings list fin_maps pretty.
From Stdlib Require Import ZArith Lia Ascii.

Local Open Scope Z_scope.
Set Warnings "-register-all".

(* ===================================================================== *)
(** * Python values, exceptions and the two monads                        *)
(* ===================================================================== *)

(** The values stored in a statistics dictionary. *)
Inductive pyval :=
| VInt (n : Z)
| VList (l : list string).

(** The exceptions the harness can raise. *)
Inductive exn :=
| KeyError (key : string)
| TypeError
| AttributeError
| FileNotFoundError (program : string).

Global Instance pyval_eq_dec : EqDecision pyval.
Proof. solve_decision. Defined.
Global Instance exn_eq_dec : EqDecision exn.
Proof. solve_decision. Defined.

(** Pure code that may raise. *)
Definition result (A : Type) : Type := exn + A.

Definition ok {A} (x : A) : result A := inr x.
Definition raise {A} (e : exn) : result A := inl e.
Definition rbind {A B} (c : result A) (k : A → result B) : result B :=
  match c with
  | inl e => inl e
  | inr x => k x
  end.

Declare Scope res_scope.
Delimit Scope res_scope with res.
Notation "x <~ c ;; k" := (rbind c (λ x, k))
  (at level 100, c at next level, right associativity) : res_scope.

(** A dictionary with string keys. *)
Abbreviation dict := (gmap string pyval).

(** [d[k]] *)
Definition getitem (d : dict) (k : string) : result pyval :=
  match d !! k with
  | Some v => ok v
  | None => raise (KeyError k)
  end.

(** The integer operand of [+], [/] and [>]. *)
Definition as_int (v : pyval) : result Z :=
  match v with
  | VInt n => ok n
  | VList _ => raise TypeError
  end.

(** The receiver of [.append]. *)
Definition as_list (v : pyval) : result (list string) :=
  match v with
  | VList l => ok l
  | VInt _ => raise AttributeError
  end.

(** [d[k] += 1] *)
Definition incr_item (d : dict) (k : string) : result dict :=
  (v <~ getitem d k ;;
   n <~ as_int v ;;
   ok (<[k := VInt (n + 1)]> d))%res.

(** [d[k].append(x)] *)
Definition append_item (d : dict) (k : string) (x : string) : result dict :=
  (v <~ getitem d k ;;
   l <~ as_list v ;;
   ok (<[k := VList (l ++ [x])]> d))%res.

(* ===================================================================== *)
(** * Data model                                                          *)
(* ===================================================================== *)

(** The dictionary returned by [test_file]. *)
Record TaskResult := mkTaskResult {
  file_path : string;
  expected_success : bool;
  actual_success : bool;
  success : bool
}.

(** An entry of [failed_tests]. *)
Record FailedTestRecord := mkFailed {
  file : string;
  expected : string;
  actual : string
}.

(** One of the two summaries under ["stats"] in the report. *)
Record StatsSummary := mkSummary {
  sum_total : pyval;
  sum_passed : pyval;
  sum_failed : pyval
}.

(** The dictionary handed to [json.dump]. *)
Record Report := mkReport {
  timestamp : string;
  stats_should_pass : StatsSummary;
  stats_should_fail : StatsSummary;
  failed_tests : list FailedTestRecord
}.

Global Instance TaskResult_eq_dec : EqDecision TaskResult.
Proof. solve_decision. Defined.
Global Instance FailedTestRecord_eq_dec : EqDecision FailedTestRecord.
Proof. solve_decision. Defined.
Global Instance StatsSummary_eq_dec : EqDecision StatsSummary.
Proof. solve_decision. Defined.
Global Instance Report_eq_dec : EqDecision Report.
Proof. solve_decision. Defined.

(** What the harness does to the outside world: a line on standard output,
    or a report file created by [open(report_file, 'w')] and filled by
    [json.dump].  (The progress bar goes to standard error and is left
    out.) *)
Inductive event :=
| Stdout (line : string)
| FileWritten (name : string) (content : Report).

Global Instance event_eq_dec : EqDecision event.
Proof. solve_decision. Defined.

(** Code with console and file effects that may raise: the trace so far is
    threaded through, and is kept when an exception is raised. *)
Definition IO (A : Type) : Type := list event → list event * result A.

Definition ret {A} (x : A) : IO A := λ t, (t, ok x).
Definition bind {A B} (c : IO A) (k : A → IO B) : IO B :=
  λ t, match c t with
       | (t', inl e) => (t', inl e)
       | (t', inr x) => k x t'
       end.
Definition lift {A} (c : result A) : IO A := λ t, (t, c).
Definition print (line : string) : IO () := λ t, (t ++ [Stdout line], ok ()).
(** [with open(name, 'w') as f: json.dump(content, f, indent=2)]; the
    file system is taken to accept the write. *)
Definition dump_json (name : string) (content : Report) : IO () :=
  λ t, (t ++ [FileWritten name content], ok ()).

Declare Scope io_scope.
Delimit Scope io_scope with io.
Notation "x <- c ;; k" := (bind c (λ x, k))
  (at level 100, c at next level, right associativity) : io_scope.
Notation "c ;;; k" := (bind c (λ _, k))
  (at level 100, right associativity) : io_scope.

(* ===================================================================== *)
(** * Strings and paths                                                   *)
(* ===================================================================== *)

Definition chars (s : string) : list ascii := String.list_ascii_of_string s.

(** [s.endswith(ext)] *)
Definition endswith (s ext : string) : bool :=
  bool_decide (chars ext `suffix_of` chars s).

(** [s.startswith(pre)] *)
Definition startswith (s pre : string) : bool :=
  bool_decide (chars pre `prefix_of` chars s).

(** [os.path.join(a, b)] of [posixpath]. *)
Definition join (a b : string) : string :=
  if startswith b "/" then b
  else if bool_decide (a = "") || endswith a "/" then a +:+ b
  else a +:+ "/" +:+ b.

(** [', '.join(l)] *)
Fixpoint comma_join (l : list string) : string :=
  match l with
  | [] => ""
  | [x] => x
  | x :: l' => x +:+ ", " +:+ comma_join l'
  end.

(** The newline character of ["\n..."] literals. *)
Definition nl : string := String "010"%char "".

(* ===================================================================== *)
(** * The file system seen by [os.walk]                                   *)
(* ===================================================================== *)

(** A directory: the sub-directories [os.walk] descends into, by name, and
    the names of its other entries, each in the order the operating system
    lists them.  ([os.walk] does not follow a symbolic link to a directory
    and skips a directory it cannot list; neither contributes files, and
    neither is part of the tree.) *)
Inductive tree :=
| Dir (dirs : list (string * tree)) (filenames : list string).

(** What a path names. *)
Inductive fsnode :=
| IsFile
| IsDir (t : tree).

(** [os.walk(top)], top-down: the triple of the directory itself, then the
    walks of its sub-directories, each rooted at [os.path.join(top, name)]. *)
Fixpoint walk (top : string) (t : tree)
  : list (string * list string * list string) :=
  match t with
  | Dir dirs filenames =>
      (top, map fst dirs, filenames) ::
      flat_map (λ d, walk (join top d.1) d.2) dirs
  end.

(* ===================================================================== *)
(** * The harness                                                         *)
(* ===================================================================== *)

(** What [subprocess.run] does with the oracle: it returns a completed
    process with a return code (negative when the process was killed by a
    signal), or it raises because the process could not be started. *)
Inductive run_outcome :=
| Exited (returncode : Z)
| SpawnFailed.

(** The percentage computed by [print_stats]: the integer [0] of the guard,
    or the float [(passed / total) * 100]. *)
Inductive rate :=
| RateZero
| RatePercent (passed total : Z).

Section Harness.

(** The environment of a run. *)
Variable fs : string → option fsnode.
(** [tree-sitter parse <file>] *)
Variable tree_sitter_parse : string → run_outcome.
(** The order in which the pool hands back the tasks it was given. *)
Variable completion : list (string * bool) → list (string * bool).
(** [time.strftime("%Y%m%d-%H%M%S")] when the report is written. *)
Variable strftime : string.
(** The [:.1f] rendering of the float [(passed / total) * 100]. *)
Variable format_1f : Z → Z → string.
(** The [:.2f] rendering of the elapsed time. *)
Variable elapsed_2f : string.
(** [repr] of a [str]. *)
Variable repr_str : string → string.

Definition default_extensions : list string := [".js"; ".ts"; ".tsx"; ".jsx"].

Definition path_exists (directory : string) : bool :=
  bool_decide (is_Some (fs directory)).

Definition os_walk (directory : string)
  : list (string * list string * list string) :=
  match fs directory with
  | Some (IsDir t) => walk directory t
  | _ => []
  end.

(** The body of the outer loop of [find_files]: the inner loop over the
    file names of one directory. *)
Definition scan_filenames (extensions : list string) (files : list string)
    (entry : string * list string * list string) : list string :=
  let '(root, _, filenames) := entry in
  foldl (λ files filename,
           if existsb (endswith filename) extensions
           then files ++ [join root filename]
           else files)
        files filenames.

Definition find_files (directory : string) (extensions : option (list string))
  : IO (list string) :=
  if negb (path_exists directory) then
    (print ("Error: Directory not found: " +:+ directory) ;;;
     ret [])%io
  else
    let extensions := default default_extensions extensions in
    let files := [] in
    ret (foldl (scan_filenames extensions) files (os_walk directory)).

Definition subprocess_run (target : string) : result Z :=
  match tree_sitter_parse target with
  | Exited returncode => ok returncode
  | SpawnFailed => raise (FileNotFoundError "tree-sitter")
  end.

Definition test_file (args : string * bool) : result TaskResult :=
  let '(file_path, expected_success) := args in
  (returncode <~ subprocess_run file_path ;;
   let actual_success := bool_decide (returncode = 0) in
   ok {| file_path := file_path;
         expected_success := expected_success;
         actual_success := actual_success;
         success := bool_decide (expected_success = actual_success) |})%res.

(** [pool.imap_unordered(f, tasks)]: one outcome per task, in completion
    order; the exception of a task is raised when its turn comes. *)
Definition imap_unordered {A} (f : string * bool → result A)
    (tasks : list (string * bool)) : list (result A) :=
  map f (completion tasks).

(** The [for result in ...] loop of [process_directory]. *)
Fixpoint batch_loop (incoming : list (result TaskResult))
    (results : list TaskResult) (stats : dict)
  : result (list TaskResult * dict) :=
  match incoming with
  | [] => ok (results, stats)
  | next :: incoming' =>
      (result <~ next ;;
       let results := results ++ [result] in
       stats <~ (if success result then incr_item stats "passed"
                 else (stats <~ incr_item stats "failed" ;;
                       append_item stats "failed_files" (file_path result))) ;;
       batch_loop incoming' results stats)%res
  end.

Definition initial_stats (total : nat) : dict :=
  {[ "total" := VInt (Z.of_nat total);
     "passed" := VInt 0;
     "failed" := VInt 0;
     "failed_files" := VList [] ]}.

Definition process_directory (directory : string) (expected_success : bool)
    (extensions : option (list string)) : IO (list TaskResult * dict) :=
  (files <- find_files directory extensions ;;
   if bool_decide (files = []) then
     (print ("No files found in " +:+ directory) ;;;
      ret ([], ∅))
   else
     let tasks := map (λ file_path, (file_path, expected_success)) files in
     let stats := initial_stats (length files) in
     let results := [] in
     (print ("Testing " +:+ pretty (length files) +:+ " files in " +:+ directory) ;;;
      lift (batch_loop (imap_unordered test_file tasks) results stats)))%io.

(** [str(v)] inside an f-string. *)
Definition py_str (v : pyval) : string :=
  match v with
  | VInt n => pretty n
  | VList l => "[" +:+ comma_join (map repr_str l) +:+ "]"
  end.

(** [a + b] *)
Definition py_add (a b : pyval) : result pyval :=
  match a, b with
  | VInt x, VInt y => ok (VInt (x + y))
  | VList x, VList y => ok (VList (x ++ y))
  | _, _ => raise TypeError
  end.

(** [(passed / total) * 100 if total > 0 else 0]: the guard is evaluated
    first, then the two operands of the division. *)
Definition guarded_rate (passed total : result pyval) : result rate :=
  (t <~ total ;;
   t <~ as_int t ;;
   if bool_decide (t > 0) then
     (p <~ passed ;;
      t <~ total ;;
      p <~ as_int p ;;
      t <~ as_int t ;;
      ok (RatePercent p t))
   else ok RateZero)%res.

(** [f"{rate:.1f}"] *)
Definition show_rate (r : rate) : string :=
  match r with
  | RateZero => "0.0"
  | RatePercent passed total => format_1f passed total
  end.

(** [f"  Passed: {passed}/{total} ({rate:.1f}%)"] *)
Definition passed_line (passed total : result pyval) (r : rate)
  : result string :=
  (p <~ passed ;;
   t <~ total ;;
   ok ("  Passed: " +:+ py_str p +:+ "/" +:+ py_str t +:+
       " (" +:+ show_rate r +:+ "%)"))%res.

Definition print_stats (stats_should_pass stats_should_fail : dict) : IO () :=
  (print (nl +:+ "===== Test Results =====") ;;;
   pass_rate <- lift (guarded_rate (getitem stats_should_pass "passed")
                                   (getitem stats_should_pass "total")) ;;
   print "Should parse successfully:" ;;;
   line <- lift (passed_line (getitem stats_should_pass "passed")
                             (getitem stats_should_pass "total") pass_rate) ;;
   print line ;;;
   fail_rate <- lift (guarded_rate (getitem stats_should_fail "passed")
                                   (getitem stats_should_fail "total")) ;;
   print "Should fail to parse:" ;;;
   line <- lift (passed_line (getitem stats_should_fail "passed")
                             (getitem stats_should_fail "total") fail_rate) ;;
   print line ;;;
   total_tests <- lift (a <~ getitem stats_should_pass "total" ;;
                        b <~ getitem stats_should_fail "total" ;;
                        py_add a b)%res ;;
   total_passed <- lift (a <~ getitem stats_should_pass "passed" ;;
                         b <~ getitem stats_should_fail "passed" ;;
                         py_add a b)%res ;;
   total_rate <- lift (guarded_rate (ok total_passed) (ok total_tests)) ;;
   print (nl +:+ "Overall:") ;;;
   line <- lift (passed_line (ok total_passed) (ok total_tests) total_rate) ;;
   print line)%io.

(** One of the two collecting loops of [save_results]. *)
Definition collect_failed (expected actual : string)
    (failed_tests : list FailedTestRecord) (results : list TaskResult)
  : list FailedTestRecord :=
  foldl (λ failed_tests result,
           if negb (success result)
           then failed_tests ++
                [{| file := file_path result;
                    expected := expected; actual := actual |}]
           else failed_tests)
        failed_tests results.

(** The three entries copied from a statistics dictionary into the report. *)
Definition summary (stats : dict) : result StatsSummary :=
  (total <~ getitem stats "total" ;;
   passed <~ getitem stats "passed" ;;
   failed <~ getitem stats "failed" ;;
   ok {| sum_total := total; sum_passed := passed; sum_failed := failed |})%res.

(** [enumerate(l)], counting from [i]. *)
Fixpoint enumerate_from {A} (i : nat) (l : list A) : list (nat * A) :=
  match l with
  | [] => []
  | x :: l' => (i, x) :: enumerate_from (S i) l'
  end.

(** [for x in l: body(x)] *)
Fixpoint for_each {A} (l : list A) (body : A → IO ()) : IO () :=
  match l with
  | [] => ret ()
  | x :: l' => (body x ;;; for_each l' body)%io
  end.

(** One of the two sample blocks printed by [save_results]. *)
Definition print_sample (what : string) (fails : list FailedTestRecord)
  : IO () :=
  if bool_decide (fails ≠ []) then
    (print (nl +:+ "Sample files that should " +:+ what +:+ " (" +:+
            pretty (length fails) +:+ "):") ;;;
     for_each (enumerate_from 0 (take 5 fails))
       (λ '(i, test),
          print ("  " +:+ pretty (i + 1)%nat +:+ ". " +:+ file test)) ;;;
     if bool_decide (5 < length fails)%nat then
       print ("  ... and " +:+ pretty (length fails - 5)%nat +:+ " more")
     else ret ())%io
  else ret ().

Definition save_results (results_should_pass results_should_fail
    : list TaskResult) (stats_should_pass stats_should_fail : dict)
  : IO (option string) :=
  let failed_tests := [] in
  let failed_tests := collect_failed "pass" "fail" failed_tests results_should_pass in
  let failed_tests := collect_failed "fail" "pass" failed_tests results_should_fail in
  if bool_decide (failed_tests ≠ []) then
    let timestamp := strftime in
    let report_file := "tree-sitter-test-report-" +:+ timestamp +:+ ".json" in
    (should_pass <- lift (summary stats_should_pass) ;;
     should_fail <- lift (summary stats_should_fail) ;;
     let report := {| timestamp := timestamp;
                      stats_should_pass := should_pass;
                      stats_should_fail := should_fail;
                      failed_tests := failed_tests |} in
     dump_json report_file report ;;;
     print (nl +:+ "Failed tests: " +:+ pretty (length failed_tests)) ;;;
     print ("Detailed report saved to: " +:+ report_file) ;;;
     let should_pass_fails :=
       filter (λ t, expected t = "pass") failed_tests in
     let should_fail_fails :=
       filter (λ t, expected t = "fail") failed_tests in
     print_sample "parse but failed" should_pass_fails ;;;
     print_sample "fail but parsed" should_fail_fails ;;;
     ret (Some report_file))%io
  else ret None.

(** [main], given the parsed command line: the two directories and the
    extension list (the four defaults when the flag is absent). *)
Definition main (should_parse_dir should_not_parse_dir : string)
    (extensions : list string) : IO () :=
  (print "Tree-sitter Grammar Tester" ;;;
   print ("Testing file extensions: " +:+ comma_join extensions) ;;;
   print (nl +:+ "Processing files that should parse successfully...") ;;;
   should_pass <- process_directory should_parse_dir true (Some extensions) ;;
   let '(results_should_pass, stats_should_pass) := should_pass in
   print (nl +:+ "Processing files that should fail to parse...") ;;;
   should_fail <- process_directory should_not_parse_dir false (Some extensions) ;;
   let '(results_should_fail, stats_should_fail) := should_fail in
   print_stats stats_should_pass stats_should_fail ;;;
   report_file <- save_results results_should_pass results_should_fail
                               stats_should_pass stats_should_fail ;;
   print (nl +:+ "Total runtime: " +:+ elapsed_2f +:+ " seconds"))%io.

End Harness.

(* ===================================================================== *)
(** * Vocabulary of the statements                                        *)
(* ===================================================================== *)

(** A filled statistics dictionary. *)
Definition mk_stats (total passed failed : Z) (failed_files : list string)
  : dict :=
  {[ "total" := VInt total;
     "passed" := VInt passed;
     "failed" := VInt failed;
     "failed_files" := VList failed_files ]}.

(** The statistics [process_directory] derives from a batch whose tasks all
    yielded a result, the results arriving in the order of the list. *)
Definition fold_stats (results : list TaskResult) : result dict :=
  (out <~ batch_loop (map ok results) [] (initial_stats (length results)) ;;
   ok out.2)%res.

(** The results that disagree with their expectation. *)
Definition mismatches (results : list TaskResult) : list TaskResult :=
  filter (λ r, success r = false) results.

(** The results that agree with their expectation. *)
Definition agreements (results : list TaskResult) : list TaskResult :=
  filter (λ r, success r = true) results.

(** The outcomes of a batch, up to the first exception. *)
Fixpoint collect {A} (incoming : list (result A)) : result (list A) :=
  match incoming with
  | [] => ok []
  | inl e :: _ => raise e
  | inr x :: incoming' => (xs <~ collect incoming' ;; ok (x :: xs))%res
  end.

(** The list [find_files] returns. *)
Definition scanned (fs : string → option fsnode) (directory : string)
    (extensions : option (list string)) : list string :=
  foldl (scan_filenames (default default_extensions extensions)) []
        (os_walk fs directory).

(** The task list [process_directory] builds. *)
Definition tasks_of (files : list string) (expected_success : bool)
  : list (string * bool) :=
  map (λ file_path, (file_path, expected_success)) files.

(** The record [save_results] appends for a mismatching result. *)
Definition record_of (expected actual : string) (r : TaskResult)
  : FailedTestRecord :=
  {| file := file_path r; expected := expected; actual := actual |}.

(** The [failed_tests] list after the two collecting loops. *)
Definition failed_records (results_should_pass results_should_fail
    : list TaskResult) : list FailedTestRecord :=
  map (record_of "pass" "fail") (mismatches results_should_pass) ++
  map (record_of "fail" "pass") (mismatches results_should_fail).

Definition report_name (timestamp : string) : string :=
  "tree-sitter-test-report-" +:+ timestamp +:+ ".json".

(** The numbered line of a sample entry. *)
Definition entry_line (numbered : nat * FailedTestRecord) : string :=
  "  " +:+ pretty (numbered.1 + 1)%nat +:+ ". " +:+ file numbered.2.

(** The line that counts the entries left out of a sample. *)
Definition more_line (remaining : nat) : string :=
  "  ... and " +:+ pretty remaining +:+ " more".

(** The lines [print_sample] prints. *)
Definition sample_lines (what : string) (fails : list FailedTestRecord)
  : list event :=
  if bool_decide (fails ≠ []) then
    Stdout (nl +:+ "Sample files that should " +:+ what +:+ " (" +:+
            pretty (length fails) +:+ "):") ::
    map (λ x, Stdout (entry_line x)) (enumerate_from 0 (take 5 fails)) ++
    (if bool_decide (5 < length fails)%nat
     then [Stdout (more_line (length fails - 5))] else [])
  else [].

(** The events of a run of [save_results] that writes a report. *)
Definition report_events (strftime : string) (s1 s2 : StatsSummary)
    (records : list FailedTestRecord) : list event :=
  [FileWritten (report_name strftime) (mkReport strftime s1 s2 records);
   Stdout (nl +:+ "Failed tests: " +:+ pretty (length records));
   Stdout ("Detailed report saved to: " +:+ report_name strftime)] ++
  sample_lines "parse but failed"
    (filter (λ t, expected t = "pass") records) ++
  sample_lines "fail but parsed"
    (filter (λ t, expected t = "fail") records).

(** A statistics dictionary that has the three entries of a summary. *)
Definition has_summary (stats : dict) : Prop :=
  is_Some (stats !! "total") ∧ is_Some (stats !! "passed")
  ∧ is_Some (stats !! "failed").

(** A capped preview of a mismatch category: nothing for an empty category;
    otherwise a header, one numbered line for each of the first five
    entries, and, when there are more than five entries, a last line with
    the number of entries left out. *)
Definition capped_preview (fails : list FailedTestRecord)
    (block : list event) : Prop :=
  (fails = [] → block = [])
  ∧ (fails ≠ [] →
     ∃ header entries more,
       block = Stdout header :: map Stdout entries ++ more
       ∧ length entries = (length fails `min` 5)%nat
       ∧ (∀ i test, (i < 5)%nat → fails !! i = Some test →
                    entries !! i = Some (entry_line (i, test)))
       ∧ ((5 < length fails)%nat →
          more = [Stdout (more_line (length fails - 5))])
       ∧ ((length fails ≤ 5)%nat → more = [])).

(** ** The corpus scanner *)

(** The name of a directory entry: not empty and without a slash. *)
Definition valid_name (name : string) : Prop :=
  name ≠ "" ∧ "/"%char ∉ chars name.

Global Instance valid_name_dec name : Decision (valid_name name).
Proof. unfold valid_name. apply _. Defined.

(** A directory tree as a file system holds it: in every directory the
    names of the sub-directories differ from one another, so do the names
    of the files, and all of them are valid names. *)
Inductive wf_tree : tree → Prop :=
| wf_Dir dirs filenames :
    NoDup (map fst dirs) →
    NoDup filenames →
    Forall valid_name (map fst dirs) →
    Forall valid_name filenames →
    Forall (λ d, wf_tree d.2) dirs →
    wf_tree (Dir dirs filenames).

(** [tree_file top t root filename]: in the tree [t] found at the path
    [top], the directory whose path is [root] lists the file [filename]. *)
Inductive tree_file : string → tree → string → string → Prop :=
| file_here top dirs filenames filename :
    filename ∈ filenames →
    tree_file top (Dir dirs filenames) top filename
| file_below top dirs filenames name sub root filename :
    (name, sub) ∈ dirs →
    tree_file (join top name) sub root filename →
    tree_file top (Dir dirs filenames) root filename.

(** Induction on directory trees, with the hypothesis for every
    sub-directory. *)
Fixpoint tree_nested_ind (P : tree → Prop)
    (HDir : ∀ dirs filenames,
        Forall (λ d, P d.2) dirs → P (Dir dirs filenames))
    (t : tree) : P t :=
  match t with
  | Dir dirs filenames =>
      HDir dirs filenames
        ((fix go (ds : list (string * tree)) : Forall (λ d, P d.2) ds :=
            match ds with
            | [] => List.Forall_nil _
            | d :: ds' =>
                List.Forall_cons _ d ds' (tree_nested_ind P HDir d.2) (go ds')
            end) dirs)
  end.

(** The prefix [os.path.join] puts before a valid name. *)
Definition dirprefix (a : string) : string :=
  if bool_decide (a = "") || endswith a "/" then a else a +:+ "/".

(** The paths of the files of a tree, relative to its root, in the order
    of the walk. *)
Fixpoint rel_paths (t : tree) : list string :=
  match t with
  | Dir dirs filenames =>
      filenames ++
      flat_map (λ d, map (String.append (d.1 +:+ "/")) (rel_paths d.2)) dirs
  end.

(** The paths of all the files a triple of the walk lists. *)
Definition all_files (entry : string * list string * list string)
  : list string :=
  map (join entry.1.1) entry.2.

(** A file name that ends with one of the extensions. *)
Definition has_extension (extensions : list string) (filename : string)
  : Prop :=
  existsb (endswith filename) extensions = true.

Global Instance has_extension_dec extensions filename :
  Decision (has_extension extensions filename).
Proof. unfold has_extension. apply _. Defined.

(** The paths [scan_filenames] appends for a triple of the walk. *)
Definition selected (extensions : list string)
    (entry : string * list string * list string) : list string :=
  map (join entry.1.1) (filter (has_extension extensions) entry.2).

(** ** Whole runs *)

(** The oracle ran on the file and rejected it. *)
Definition rejected (oracle : string → run_outcome) (fp : string) : Prop :=
  ∃ rc, oracle fp = Exited rc ∧ rc ≠ 0.

(** The oracle ran on the file and accepted it. *)
Definition accepted (oracle : string → run_outcome) (fp : string) : Prop :=
  oracle fp = Exited 0.

(** The rate [print_stats] shows for [passed] out of [total]. *)
Definition rate_text (format_1f : Z → Z → string) (passed total : Z)
  : string :=
  if bool_decide (total > 0) then format_1f passed total else "0.0".

(** The ["  Passed: ..."] line for two integers. *)
Definition passed_text (format_1f : Z → Z → string) (passed total : Z)
  : string :=
  "  Passed: " +:+ pretty passed +:+ "/" +:+ pretty total +:+
  " (" +:+ rate_text format_1f passed total +:+ "%)".

(** The event is a line on standard output. *)
Definition is_stdout (ev : event) : Prop :=
  match ev with
  | Stdout _ => True
  | FileWritten _ _ => False
  end.

Global Instance is_stdout_dec ev : Decision (is_stdout ev).
Proof. destruct ev; apply _. Defined.

(** The report files written among some events. *)
Definition files_written (evs : list event) : list event :=
  filter (λ ev, ¬ is_stdout ev) evs.

(** A computation whose only effect is to print lines. *)
Definition stdout_only {A} (c : IO A) : Prop :=
  ∀ t, ∃ lines, (c t).1 = t ++ map Stdout lines.

(** The three lines [main] prints before it scans anything. *)
Definition banner (extensions : list string) : list event :=
  [Stdout "Tree-sitter Grammar Tester";
   Stdout ("Testing file extensions: " +:+ comma_join extensions);
   Stdout (nl +:+ "Processing files that should parse successfully...")].

(** ** Concrete environments used in the examples *)

Definition corpus_tree : tree :=
  Dir [("sub", Dir [] ["b.tsx"; "notes.md"]); ("empty", Dir [] [])]
      ["a.ts"; "README"].

(** Two corpora: ["corpus"] with a sub-directory, and the flat ["bad"]. *)
Definition corpus_fs (p : string) : option fsnode :=
  if bool_decide (p = "corpus") then Some (IsDir corpus_tree)
  else if bool_decide (p = "bad") then
    Some (IsDir (Dir [] ["c.js"; "d.js"]))
  else None.

(** No directory exists. *)
Definition empty_fs (p : string) : option fsnode := None.

(** An oracle that accepts exactly the [.ts] and [.js] files. *)
Definition oracle_ts_js (p : string) : run_outcome :=
  if endswith p ".ts" || endswith p ".js" then Exited 0 else Exited 1.

(** An oracle that cannot be started for one file and accepts the others. *)
Definition oracle_flaky (p : string) : run_outcome :=
  if bool_decide (p = "corpus/a.ts") then SpawnFailed else Exited 0.

(** A rendering of [(passed / total) * 100] with one decimal, for the
    examples (it truncates). *)
Definition percent_1f (passed total : Z) : string :=
  pretty (1000 * passed / total / 10) +:+ "." +:+
  pretty ((1000 * passed / total) `mod` 10).

(** A rendering of [repr] for the examples. *)
Definition quoted (s : string) : string := "'" +:+ s +:+ "'".

(** Seven results of files that were expected to parse and did not. *)
Definition seven_fails : list TaskResult :=
  map (λ n : nat, {| file_path := "f" +:+ pretty n +:+ ".ts";
                     expected_success := true;
                     actual_success := false; success := false |})
      (seq 0 7).

Definition wrong_pass : TaskResult :=
  {| file_path := "c.js"; expected_success := false;
     actual_success := true; success := false |}.
(** A file system in which ["notes.txt"] is a regular file. *)
Definition file_fs (p : string) : option fsnode :=
  if bool_decide (p = "notes.txt") then Some IsFile else None.

Definition fail_a : TaskResult :=
  {| file_path := "a.ts"; expected_success := true;
     actual_success := false; success := false |}.
Definition fail_b : TaskResult :=
  {| file_path := "b.ts"; expected_success := true;
     actual_success := false; success := false |}.
Definition pass_c : TaskResult :=
  {| file_path := "c.ts"; expected_success := true;
     actual_success := true; success := true |}.

(* ===================================================================== *)
(** * Dictionaries                                                        *)
(* ===================================================================== *)

Lemma initial_stats_mk n : initial_stats n = mk_stats (Z.of_nat n) 0 0 [].
Proof. reflexivity. Qed.

Lemma mk_stats_lookup_total t p f ff :
  mk_stats t p f ff !! "total" = Some (VInt t).
Proof. reflexivity. Qed.

Lemma mk_stats_lookup_passed t p f ff :
  mk_stats t p f ff !! "passed" = Some (VInt p).
Proof. reflexivity. Qed.

Lemma mk_stats_lookup_failed t p f ff :
  mk_stats t p f ff !! "failed" = Some (VInt f).
Proof. reflexivity. Qed.

Lemma mk_stats_lookup_failed_files t p f ff :
  mk_stats t p f ff !! "failed_files" = Some (VList ff).
Proof. reflexivity. Qed.

Lemma incr_passed t p f ff :
  incr_item (mk_stats t p f ff) "passed" = ok (mk_stats t (p + 1) f ff).
Proof. reflexivity. Qed.

Lemma incr_failed t p f ff :
  incr_item (mk_stats t p f ff) "failed" = ok (mk_stats t p (f + 1) ff).
Proof. reflexivity. Qed.

Lemma append_failed_files t p f ff x :
  append_item (mk_stats t p f ff) "failed_files" x
  = ok (mk_stats t p f (ff ++ [x])).
Proof. reflexivity. Qed.

Lemma mk_stats_inj t p f ff t' p' f' ff' :
  mk_stats t p f ff = mk_stats t' p' f' ff' →
  t = t' ∧ p = p' ∧ f = f' ∧ ff = ff'.
Proof.
  intros E.
  pose proof (f_equal (λ d : dict, d !! "total") E) as Ht.
  pose proof (f_equal (λ d : dict, d !! "passed") E) as Hp.
  pose proof (f_equal (λ d : dict, d !! "failed") E) as Hf.
  pose proof (f_equal (λ d : dict, d !! "failed_files") E) as Hl.
  cbv beta in *.
  rewrite !mk_stats_lookup_total in Ht.
  rewrite !mk_stats_lookup_passed in Hp.
  rewrite !mk_stats_lookup_failed in Hf.
  rewrite !mk_stats_lookup_failed_files in Hl.
  by simplify_eq.
Qed.

Lemma mk_stats_nonempty t p f ff : mk_stats t p f ff ≠ ∅.
Proof.
  intros E. pose proof (f_equal (λ d : dict, d !! "total") E) as Ht.
  cbv beta in Ht. rewrite mk_stats_lookup_total in Ht. done.
Qed.

(* ===================================================================== *)
(** * The batch loop                                                      *)
(* ===================================================================== *)

Lemma collect_map_ok {A} (xs : list A) : collect (map ok xs) = ok xs.
Proof. induction xs as [|x xs IH]; simpl; [done|]. by rewrite IH. Qed.

Lemma collect_ok_inv {A} (incoming : list (result A)) xs :
  collect incoming = ok xs → incoming = map ok xs.
Proof.
  revert xs. induction incoming as [|[e|x] incoming IH]; intros xs H; simpl in H.
  - by injection H as <-.
  - discriminate.
  - destruct (collect incoming) as [e|ys] eqn:E; simpl in H; [discriminate|].
    injection H as <-. simpl. f_equal. by apply IH.
Qed.

Lemma collect_raise_elem {A} (incoming : list (result A)) e :
  collect incoming = raise e → inl e ∈ incoming.
Proof.
  induction incoming as [|[e'|x] incoming IH]; simpl; intros H.
  - discriminate.
  - injection H as ->. left.
  - right. apply IH. by destruct (collect incoming).
Qed.

Lemma collect_some_raise {A} (incoming : list (result A)) e :
  inl e ∈ incoming → ∃ e', collect incoming = raise e'.
Proof.
  induction incoming as [|[e'|x] incoming IH]; intros H.
  - by apply elem_of_nil in H.
  - by eexists.
  - apply elem_of_cons in H as [H|H]; [discriminate|].
    destruct (IH H) as [e' E]. exists e'. simpl. by rewrite E.
Qed.

Lemma mismatches_cons r rs :
  mismatches (r :: rs)
  = if success r then mismatches rs else r :: mismatches rs.
Proof.
  unfold mismatches. rewrite filter_cons.
  destruct (success r); by case_decide.
Qed.

Lemma agreements_cons r rs :
  agreements (r :: rs)
  = if success r then r :: agreements rs else agreements rs.
Proof.
  unfold agreements. rewrite filter_cons.
  destruct (success r); by case_decide.
Qed.

Lemma agreements_mismatches_length rs :
  length rs = (length (agreements rs) + length (mismatches rs))%nat.
Proof.
  induction rs as [|r rs IH]; [done|].
  rewrite agreements_cons, mismatches_cons.
  destruct (success r); simpl; lia.
Qed.

Lemma batch_loop_results rs acc t p f ff :
  batch_loop (map ok rs) acc (mk_stats t p f ff)
  = ok (acc ++ rs,
        mk_stats t (p + Z.of_nat (length (agreements rs)))
                   (f + Z.of_nat (length (mismatches rs)))
                   (ff ++ map file_path (mismatches rs))).
Proof.
  revert acc p f ff. induction rs as [|r rs IH]; intros acc p f ff.
  - simpl. by rewrite !Z.add_0_r, !app_nil_r.
  - cbn [map batch_loop rbind ok].
    rewrite agreements_cons, mismatches_cons.
    destruct (success r) eqn:Hs.
    + rewrite incr_passed. cbn [rbind ok]. rewrite IH.
      do 2 f_equal; [by rewrite <- app_assoc|].
      f_equal. cbn [length]. lia.
    + rewrite incr_failed. cbn [rbind ok]. rewrite append_failed_files.
      cbn [rbind ok]. rewrite IH.
      do 2 f_equal; [by rewrite <- app_assoc|].
      cbn [length map]. rewrite <- app_assoc. f_equal. lia.
Qed.

Lemma batch_loop_collect incoming acc t p f ff :
  batch_loop incoming acc (mk_stats t p f ff)
  = (rs <~ collect incoming ;;
     ok (acc ++ rs,
         mk_stats t (p + Z.of_nat (length (agreements rs)))
                    (f + Z.of_nat (length (mismatches rs)))
                    (ff ++ map file_path (mismatches rs))))%res.
Proof.
  destruct (collect incoming) as [e|rs] eqn:E.
  - cbn [rbind]. clear -E. revert acc p f ff.
    induction incoming as [|[e'|r] incoming IH]; intros acc p f ff;
      simpl in E; [discriminate| |].
    + by injection E as ->.
    + destruct (collect incoming) as [e''|ys] eqn:E'; [|discriminate].
      injection E as ->. cbn [batch_loop rbind ok].
      destruct (success r).
      * rewrite incr_passed. cbn [rbind ok]. by apply IH.
      * rewrite incr_failed. cbn [rbind ok]. rewrite append_failed_files.
        cbn [rbind ok]. by apply IH.
  - apply collect_ok_inv in E as ->. cbn [rbind]. apply batch_loop_results.
Qed.

Lemma fold_stats_eq rs :
  fold_stats rs
  = ok (mk_stats (Z.of_nat (length rs))
                 (Z.of_nat (length (agreements rs)))
                 (Z.of_nat (length (mismatches rs)))
                 (map file_path (mismatches rs))).
Proof.
  unfold fold_stats. rewrite initial_stats_mk, batch_loop_results. done.
Qed.

(* ===================================================================== *)
(** * Scanning and processing one directory                               *)
(* ===================================================================== *)

Lemma os_walk_missing fs directory :
  path_exists fs directory = false → os_walk fs directory = [].
Proof.
  unfold path_exists, os_walk. intros H%bool_decide_eq_false.
  destruct (fs directory) as [n|]; [|done]. destruct H. by eexists.
Qed.

Lemma find_files_eq fs directory extensions t :
  find_files fs directory extensions t
  = (if path_exists fs directory then t
     else t ++ [Stdout ("Error: Directory not found: " +:+ directory)],
     ok (scanned fs directory extensions)).
Proof.
  unfold find_files, scanned.
  destruct (path_exists fs directory) eqn:E; simpl; [done|].
  by rewrite (os_walk_missing _ _ E).
Qed.

Lemma process_directory_eq fs oracle completion directory e extensions t :
  process_directory fs oracle completion directory e extensions t
  = let t1 := (find_files fs directory extensions t).1 in
    let files := scanned fs directory extensions in
    if bool_decide (files = []) then
      (t1 ++ [Stdout ("No files found in " +:+ directory)], ok ([], ∅))
    else
      (t1 ++ [Stdout ("Testing " +:+ pretty (length files) +:+
                      " files in " +:+ directory)],
       (rs <~ collect (map (test_file oracle) (completion (tasks_of files e))) ;;
        ok (rs, mk_stats (Z.of_nat (length files))
                         (Z.of_nat (length (agreements rs)))
                         (Z.of_nat (length (mismatches rs)))
                         (map file_path (mismatches rs))))%res).
Proof.
  unfold process_directory, bind. rewrite find_files_eq. cbn [fst snd ok].
  case_bool_decide as Hf; [done|].
  unfold print, lift, imap_unordered. cbn [ok].
  rewrite initial_stats_mk, batch_loop_collect. fold (tasks_of (scanned fs directory extensions) e).
  by destruct (collect _).
Qed.

(* ===================================================================== *)
(** * The oracle invoker                                                  *)
(* ===================================================================== *)

Lemma test_file_exited oracle fp e rc :
  oracle fp = Exited rc →
  test_file oracle (fp, e)
  = ok {| file_path := fp; expected_success := e;
          actual_success := bool_decide (rc = 0);
          success := bool_decide (e = bool_decide (rc = 0)) |}.
Proof. intros H. unfold test_file, subprocess_run. by rewrite H. Qed.

Lemma test_file_spawn_failed oracle fp e :
  oracle fp = SpawnFailed →
  test_file oracle (fp, e) = raise (FileNotFoundError "tree-sitter").
Proof. intros H. unfold test_file, subprocess_run. by rewrite H. Qed.

Lemma test_file_raise_inv oracle task x :
  test_file oracle task = raise x → x = FileNotFoundError "tree-sitter".
Proof.
  destruct task as [fp e]. unfold test_file, subprocess_run.
  destruct (oracle fp); simpl; intros H; [discriminate|].
  by injection H.
Qed.

Lemma map_all_ok {A B} (f : A → result B) (l : list A) :
  (∀ x, x ∈ l → ∃ y, f x = ok y) → ∃ ys, map f l = map ok ys.
Proof.
  induction l as [|x l IH]; intros H.
  - by exists [].
  - destruct (H x) as [y Hy]; [left|].
    destruct IH as [ys Hys]; [intros z Hz; apply H; by right|].
    exists (y :: ys). simpl. by rewrite Hy, Hys.
Qed.

Lemma elem_of_tasks_of files e fp e' :
  (fp, e') ∈ tasks_of files e ↔ fp ∈ files ∧ e' = e.
Proof.
  unfold tasks_of. rewrite list_elem_of_In, in_map_iff. split.
  - intros (x & [= -> ->] & Hx%list_elem_of_In). done.
  - intros [Hx%list_elem_of_In ->]. by exists fp.
Qed.

(** The results of a batch whose oracle processes all start. *)
Lemma batch_all_started oracle completion files e :
  (∀ l, completion l ≡ₚ l) →
  (∀ fp, fp ∈ files → oracle fp ≠ SpawnFailed) →
  ∃ rs, collect (map (test_file oracle) (completion (tasks_of files e))) = ok rs
        ∧ map ok rs ≡ₚ map (test_file oracle) (tasks_of files e).
Proof.
  intros Hperm Hstart.
  destruct (map_all_ok (test_file oracle) (completion (tasks_of files e)))
    as [rs Hrs].
  { intros [fp e'] Hin. rewrite Hperm in Hin.
    apply elem_of_tasks_of in Hin as [Hin ->].
    specialize (Hstart fp Hin).
    destruct (oracle fp) as [rc|] eqn:E; [|done].
    eexists. by apply test_file_exited. }
  exists rs. rewrite Hrs, collect_map_ok. split; [done|].
  rewrite <- Hrs. by rewrite Hperm.
Qed.

(** A batch with an oracle process that cannot be started raises. *)
Lemma batch_spawn_failed oracle completion files e fp :
  (∀ l, completion l ≡ₚ l) →
  fp ∈ files → oracle fp = SpawnFailed →
  collect (map (test_file oracle) (completion (tasks_of files e)))
  = raise (FileNotFoundError "tree-sitter").
Proof.
  intros Hperm Hin Hfail.
  destruct (collect_some_raise
              (map (test_file oracle) (completion (tasks_of files e)))
              (FileNotFoundError "tree-sitter")) as [x Hx].
  { apply list_elem_of_In, in_map_iff. exists (fp, e).
    split; [by apply test_file_spawn_failed|].
    apply list_elem_of_In. rewrite Hperm. by apply elem_of_tasks_of. }
  rewrite Hx. f_equal.
  apply collect_raise_elem, list_elem_of_In, in_map_iff in Hx
    as (task & Htask & _).
  by apply test_file_raise_inv in Htask.
Qed.

(** C5: when the oracle process for a file ends with return code [rc],
    [test_file] returns a task result that carries the file path and the
    expected verdict unchanged, whose [actual_success] is [rc == 0] and
    whose [success] is [expected_success == actual_success]. *)
Theorem test_file_verdict oracle fp e rc :
  oracle fp = Exited rc →
  ∃ r, test_file oracle (fp, e) = ok r
       ∧ file_path r = fp
       ∧ expected_success r = e
       ∧ actual_success r = bool_decide (rc = 0)
       ∧ success r = bool_decide (expected_success r = actual_success r).
Proof.
  intros H. eexists. split; [by apply test_file_exited|]. by cbn.
Qed.

Lemma test_file_verdict_witness :
  oracle_ts_js "corpus/sub/b.tsx" = Exited 1
  ∧ ∃ r, test_file oracle_ts_js ("corpus/sub/b.tsx", true) = ok r
         ∧ file_path r = "corpus/sub/b.tsx"
         ∧ expected_success r = true
         ∧ actual_success r = bool_decide (1 = 0)
         ∧ success r = bool_decide (expected_success r = actual_success r).
Proof.
  split; [reflexivity|].
  apply (test_file_verdict oracle_ts_js "corpus/sub/b.tsx" true 1).
  reflexivity.
Defined.

(** C2, as stated, fails: an oracle process that cannot be started for
    ["corpus/a.ts"] gives no task result at all, and the batch over
    ["corpus"] raises although the oracle accepts the other file. *)
Lemma spawn_failure_aborts_batch :
  oracle_flaky "corpus/a.ts" = SpawnFailed
  ∧ oracle_flaky "corpus/sub/b.tsx" = Exited 0
  ∧ ¬ (∃ r, test_file oracle_flaky ("corpus/a.ts", true) = ok r
            ∧ actual_success r = false)
  ∧ ¬ (∃ t' out, process_directory corpus_fs oracle_flaky id
                   "corpus" true None [] = (t', ok out)).
Proof.
  split; [reflexivity|]. split; [reflexivity|]. split.
  - intros (r & H & _). vm_compute in H. discriminate.
  - intros (t' & out & H). vm_compute in H. discriminate.
Qed.

(** C2, amended: an oracle process that ran and ended with a non-zero
    return code (negative when a signal killed it) gives
    [actual_success = false]; when every oracle process of a non-empty batch
    can be started, [process_directory] returns exactly the results of its
    tasks, in some order; an oracle process that cannot be started raises
    out of [test_file] and out of [process_directory]. *)
Theorem oracle_failure_policy fs oracle completion directory e extensions
    t t0 files :
  (∀ l, completion l ≡ₚ l) →
  find_files fs directory extensions t = (t0, ok files) →
  (∀ fp e' rc, oracle fp = Exited rc → rc ≠ 0 →
     ∃ r, test_file oracle (fp, e') = ok r ∧ actual_success r = false)
  ∧ (files ≠ [] → (∀ fp, fp ∈ files → oracle fp ≠ SpawnFailed) →
     ∃ t' results stats,
       process_directory fs oracle completion directory e extensions t
       = (t', ok (results, stats))
       ∧ map ok results ≡ₚ map (test_file oracle) (tasks_of files e))
  ∧ (∀ fp, fp ∈ files → oracle fp = SpawnFailed →
     test_file oracle (fp, e) = raise (FileNotFoundError "tree-sitter")
     ∧ ∃ t', process_directory fs oracle completion directory e extensions t
             = (t', raise (FileNotFoundError "tree-sitter"))).
Proof.
  intros Hperm Hfind. rewrite find_files_eq in Hfind.
  injection Hfind as Ht0 Hfiles.
  split; [|split].
  - intros fp e' rc Hrc Hnz. eexists. split; [by apply test_file_exited|].
    cbn. by apply bool_decide_eq_false.
  - intros Hne Hstart.
    destruct (batch_all_started oracle completion files e Hperm Hstart)
      as (rs & Hrs & Hp).
    rewrite process_directory_eq. cbv zeta. rewrite Hfiles.
    rewrite bool_decide_eq_false_2 by done. rewrite Hrs.
    by eexists _, _, _.
  - intros fp Hin Hfail. split; [by apply test_file_spawn_failed|].
    rewrite process_directory_eq. cbv zeta. rewrite Hfiles.
    rewrite bool_decide_eq_false_2 by (intros ->; by apply elem_of_nil in Hin).
    rewrite (batch_spawn_failed oracle completion files e fp Hperm Hin Hfail).
    by eexists.
Qed.

Lemma oracle_failure_policy_witness :
  (∀ l : list (string * bool), id l ≡ₚ l)
  ∧ find_files corpus_fs "corpus" None []
    = ([], ok ["corpus/a.ts"; "corpus/sub/b.tsx"])
  ∧ ∃ t' results stats,
      process_directory corpus_fs oracle_ts_js id "corpus" true None []
      = (t', ok (results, stats))
      ∧ map ok results
        ≡ₚ map (test_file oracle_ts_js)
               (tasks_of ["corpus/a.ts"; "corpus/sub/b.tsx"] true).
Proof.
  assert (Hperm : ∀ l : list (string * bool), id l ≡ₚ l) by reflexivity.
  assert (Hfind : find_files corpus_fs "corpus" None []
                  = ([], ok ["corpus/a.ts"; "corpus/sub/b.tsx"]))
    by (vm_compute; reflexivity).
  split; [exact Hperm|]. split; [exact Hfind|].
  refine (proj1 (proj2 (oracle_failure_policy corpus_fs oracle_ts_js id
                          "corpus" true None [] [] _ Hperm Hfind)) _ _).
  - discriminate.
  - intros fp Hin. unfold oracle_ts_js. by destruct (_ || _).
Defined.

(* ===================================================================== *)
(** * Aggregation                                                         *)
(* ===================================================================== *)

Lemma mismatches_Permutation rs rs' :
  rs ≡ₚ rs' → mismatches rs ≡ₚ mismatches rs'.
Proof. intros H. unfold mismatches. by rewrite H. Qed.

Lemma agreements_Permutation rs rs' :
  rs ≡ₚ rs' → agreements rs ≡ₚ agreements rs'.
Proof. intros H. unfold agreements. by rewrite H. Qed.

(** C3, as stated, fails: two failing results folded in the two possible
    orders give statistics that differ in [failed_files]. *)
Lemma fold_stats_order_dependent :
  [fail_a; fail_b] ≡ₚ [fail_b; fail_a]
  ∧ fold_stats [fail_a; fail_b] ≠ fold_stats [fail_b; fail_a].
Proof.
  split; [apply perm_swap|].
  rewrite !fold_stats_eq. intros H.
  apply (inj inr), mk_stats_inj in H as (_ & _ & _ & H). discriminate.
Qed.

(** C3, amended: folding a permutation of a result collection gives the
    same [total], [passed] and [failed], and a [failed_files] list that is
    a permutation of the original one (it follows the order of arrival). *)
Theorem fold_stats_permutation rs rs' :
  rs ≡ₚ rs' →
  ∃ total passed failed ff ff',
    fold_stats rs = ok (mk_stats total passed failed ff)
    ∧ fold_stats rs' = ok (mk_stats total passed failed ff')
    ∧ ff ≡ₚ ff'.
Proof.
  intros H. rewrite !fold_stats_eq.
  eexists _, _, _, _, _. split; [reflexivity|]. split.
  - by rewrite <- (Permutation_length H),
         <- (Permutation_length (agreements_Permutation _ _ H)),
         <- (Permutation_length (mismatches_Permutation _ _ H)).
  - apply Permutation_map. by apply mismatches_Permutation.
Qed.

Lemma fold_stats_permutation_witness :
  [fail_a; pass_c; fail_b] ≡ₚ [fail_b; fail_a; pass_c]
  ∧ ∃ total passed failed ff ff',
      fold_stats [fail_a; pass_c; fail_b]
      = ok (mk_stats total passed failed ff)
      ∧ fold_stats [fail_b; fail_a; pass_c]
        = ok (mk_stats total passed failed ff')
      ∧ ff ≡ₚ ff'.
Proof.
  assert (H : [fail_a; pass_c; fail_b] ≡ₚ [fail_b; fail_a; pass_c]).
  { apply (Permutation_cons_app [fail_b] [pass_c] fail_a). apply perm_swap. }
  split; [exact H|]. exact (fold_stats_permutation _ _ H).
Defined.

(** C4: the statistics derived from a non-empty result collection satisfy
    [total == passed + failed] and [failed == len(failed_files)], both for
    the fold over the collection and for what [process_directory]
    returns. *)
Theorem stats_invariant fs oracle completion directory e extensions
    t t' results stats :
  (∀ l, completion l ≡ₚ l) →
  results ≠ [] →
  (∃ total passed failed ff,
     fold_stats results = ok (mk_stats total passed failed ff)
     ∧ total = Z.of_nat (length results)
     ∧ total = passed + failed
     ∧ failed = Z.of_nat (length ff))
  ∧ (process_directory fs oracle completion directory e extensions t
     = (t', ok (results, stats)) →
     ∃ total passed failed ff,
       stats = mk_stats total passed failed ff
       ∧ total = Z.of_nat (length results)
       ∧ total = passed + failed
       ∧ failed = Z.of_nat (length ff)).
Proof.
  intros Hperm Hne. split.
  - rewrite fold_stats_eq. eexists _, _, _, _. split; [reflexivity|].
    rewrite length_map, (agreements_mismatches_length results). lia.
  - rewrite process_directory_eq. cbv zeta. case_bool_decide as Hf.
    { intros [= _ <- _]. done. }
    destruct (collect _) as [x|rs] eqn:E; cbn [rbind ok]; [discriminate|].
    intros [= _ -> <-]. eexists _, _, _, _. split; [reflexivity|].
    apply collect_ok_inv in E.
    apply (f_equal length) in E. rewrite !length_map in E.
    rewrite (Permutation_length (Hperm _)) in E.
    unfold tasks_of in E. rewrite length_map in E.
    rewrite length_map, E, (agreements_mismatches_length results). lia.
Qed.

Lemma stats_invariant_witness :
  (∀ l : list (string * bool), reverse l ≡ₚ l)
  ∧ [mkTaskResult "corpus/sub/b.tsx" true false false;
     mkTaskResult "corpus/a.ts" true true true] ≠ []
  ∧ process_directory corpus_fs oracle_ts_js reverse "corpus" true None []
    = ([Stdout "Testing 2 files in corpus"],
       ok ([mkTaskResult "corpus/sub/b.tsx" true false false;
            mkTaskResult "corpus/a.ts" true true true],
           mk_stats 2 1 1 ["corpus/sub/b.tsx"]))
  ∧ ∃ total passed failed ff,
      mk_stats 2 1 1 ["corpus/sub/b.tsx"] = mk_stats total passed failed ff
      ∧ total = 2 ∧ total = passed + failed
      ∧ failed = Z.of_nat (length ff).
Proof.
  assert (Hperm : ∀ l : list (string * bool), reverse l ≡ₚ l)
    by (intros l; apply reverse_Permutation).
  assert (Hne : [mkTaskResult "corpus/sub/b.tsx" true false false;
                 mkTaskResult "corpus/a.ts" true true true] ≠ [])
    by discriminate.
  assert (Hrun : process_directory corpus_fs oracle_ts_js reverse
                   "corpus" true None []
                 = ([Stdout "Testing 2 files in corpus"],
                    ok ([mkTaskResult "corpus/sub/b.tsx" true false false;
                         mkTaskResult "corpus/a.ts" true true true],
                        mk_stats 2 1 1 ["corpus/sub/b.tsx"])))
    by (vm_compute; reflexivity).
  split; [exact Hperm|]. split; [exact Hne|]. split; [exact Hrun|].
  exact (proj2 (stats_invariant corpus_fs oracle_ts_js reverse "corpus" true
                  None [] _ _ _ Hperm Hne) Hrun).
Defined.

(* ===================================================================== *)
(** * The report writer                                                   *)
(* ===================================================================== *)

Lemma collect_failed_eq expected actual acc rs :
  collect_failed expected actual acc rs
  = acc ++ map (record_of expected actual) (mismatches rs).
Proof.
  unfold collect_failed. revert acc.
  induction rs as [|r rs IH]; intros acc; cbn [foldl].
  - by rewrite app_nil_r.
  - rewrite IH, mismatches_cons. destruct (success r); cbn [negb]; [done|].
    by rewrite <- app_assoc.
Qed.

Lemma filter_records_same exp act rs :
  filter (λ t, expected t = exp) (map (record_of exp act) rs)
  = map (record_of exp act) rs.
Proof.
  induction rs as [|r rs IH]; [done|].
  cbn [map]. rewrite filter_cons_True by done. by rewrite IH.
Qed.

Lemma filter_records_other exp exp' act rs :
  exp ≠ exp' →
  filter (λ t, expected t = exp') (map (record_of exp act) rs) = [].
Proof.
  intros Hne. induction rs as [|r rs IH]; [done|].
  cbn [map]. rewrite filter_cons_False by done. by rewrite IH.
Qed.

Lemma filter_failed_records_pass rp rf :
  filter (λ t, expected t = "pass") (failed_records rp rf)
  = map (record_of "pass" "fail") (mismatches rp).
Proof.
  unfold failed_records.
  rewrite filter_app, filter_records_same, filter_records_other by done.
  by rewrite app_nil_r.
Qed.

Lemma filter_failed_records_fail rp rf :
  filter (λ t, expected t = "fail") (failed_records rp rf)
  = map (record_of "fail" "pass") (mismatches rf).
Proof.
  unfold failed_records.
  rewrite filter_app, filter_records_same, filter_records_other by done.
  done.
Qed.

Lemma failed_records_nil rp rf :
  failed_records rp rf = [] ↔ mismatches (rp ++ rf) = [].
Proof.
  unfold failed_records, mismatches. rewrite filter_app.
  split.
  - intros [H1 H2]%app_eq_nil.
    apply map_eq_nil in H1, H2. by rewrite H1, H2.
  - intros [H1 H2]%app_eq_nil. by rewrite H1, H2.
Qed.

Lemma for_each_print {A} (l : list A) (line : A → string) t :
  for_each l (λ x, print (line x)) t
  = (t ++ map (λ x, Stdout (line x)) l, ok ()).
Proof.
  revert t. induction l as [|x l IH]; intros t; cbn [for_each map].
  - unfold ret. by rewrite app_nil_r.
  - unfold bind, print at 1. cbn [ok]. rewrite IH.
    by rewrite <- app_assoc.
Qed.

Lemma for_each_ext {A} (l : list A) (f g : A → IO ()) t :
  (∀ x t', f x t' = g x t') → for_each l f t = for_each l g t.
Proof.
  intros H. revert t. induction l as [|x l IH]; intros t; [done|].
  cbn [for_each]. unfold bind. rewrite H.
  destruct (g x t) as [t' [e|[]]]; [done|]. apply IH.
Qed.

Lemma print_sample_eq what fails t :
  print_sample what fails t = (t ++ sample_lines what fails, ok ()).
Proof.
  unfold print_sample, sample_lines. case_bool_decide as Hne.
  - unfold bind. unfold print at 1. cbn [ok].
    rewrite (for_each_ext _ _ (λ x, print (entry_line x)))
      by (by intros [i test] t').
    rewrite (for_each_print _ entry_line).
    + case_bool_decide; unfold print, ret; cbn [ok].
      * by rewrite <- !app_assoc.
      * by rewrite app_nil_r, <- !app_assoc.
  - unfold ret. by rewrite app_nil_r.
Qed.

Lemma summary_ok stats :
  has_summary stats →
  ∃ total passed failed,
    stats !! "total" = Some total ∧ stats !! "passed" = Some passed
    ∧ stats !! "failed" = Some failed
    ∧ summary stats = ok (mkSummary total passed failed).
Proof.
  intros ([a Ha] & [b Hb] & [c Hc]). exists a, b, c.
  unfold summary, getitem. by rewrite Ha, Hb, Hc.
Qed.

Lemma summary_ok_inv stats s :
  summary stats = ok s →
  stats !! "total" = Some (sum_total s)
  ∧ stats !! "passed" = Some (sum_passed s)
  ∧ stats !! "failed" = Some (sum_failed s).
Proof.
  unfold summary, getitem.
  destruct (stats !! "total"); [|done].
  destruct (stats !! "passed"); [|done].
  destruct (stats !! "failed"); [|done].
  cbn. by intros [= <-].
Qed.

Lemma save_results_eq strftime rp rf sp sf t :
  save_results strftime rp rf sp sf t
  = if bool_decide (failed_records rp rf ≠ []) then
      match summary sp, summary sf with
      | inl e, _ => (t, inl e)
      | inr _, inl e => (t, inl e)
      | inr s1, inr s2 =>
          (t ++ report_events strftime s1 s2 (failed_records rp rf),
           ok (Some (report_name strftime)))
      end
    else (t, ok None).
Proof.
  unfold save_results. rewrite !collect_failed_eq. cbn [app].
  fold (failed_records rp rf). case_bool_decide as Hne; [|done].
  unfold bind, lift.
  destruct (summary sp) as [e|s1]; [done|].
  destruct (summary sf) as [e|s2]; [done|].
  unfold dump_json, print. cbn [ok]. rewrite !print_sample_eq.
  unfold ret, report_events, report_name. by rewrite <- !app_assoc.
Qed.

Lemma enumerate_from_lookup {A} (l : list A) k i x :
  l !! i = Some x → enumerate_from k l !! i = Some ((k + i)%nat, x).
Proof.
  revert k i. induction l as [|y l IH]; intros k [|i] H; try done.
  - injection H as ->. cbn. by rewrite Nat.add_0_r.
  - change (enumerate_from k (y :: l) !! S i)
      with (enumerate_from (S k) l !! i).
    rewrite (IH (S k) i H). do 2 f_equal. lia.
Qed.

Lemma enumerate_from_length {A} (l : list A) k :
  length (enumerate_from k l) = length l.
Proof. revert k. induction l as [|y l IH]; intros k; cbn; [done|]. by rewrite IH. Qed.

Lemma sample_lines_capped what fails :
  capped_preview fails (sample_lines what fails).
Proof.
  unfold capped_preview, sample_lines. split.
  - intros ->. done.
  - intros Hne. rewrite bool_decide_eq_true_2 by done.
    eexists _, (map entry_line (enumerate_from 0 (take 5 fails))), _.
    split; [by rewrite map_map|].
    split; [rewrite length_map, enumerate_from_length, length_take; lia|].
    split; [|split].
    + intros i test Hi Hlook.
      change (map entry_line ?l) with (entry_line <$> l).
      rewrite list_lookup_fmap.
      rewrite (enumerate_from_lookup _ 0 i test); [done|].
      by rewrite lookup_take_lt.
    + intros H. by rewrite bool_decide_eq_true_2.
    + intros H. rewrite bool_decide_eq_false_2; [done|lia].
Qed.

Lemma sample_lines_stdout what fails :
  ∃ printed, sample_lines what fails = map Stdout printed.
Proof.
  unfold sample_lines. case_bool_decide; [|by exists []].
  case_bool_decide.
  - eexists (_ :: map entry_line _ ++ [_]).
    cbn [map]. by rewrite map_app, map_map.
  - eexists (_ :: map entry_line _ ++ []).
    cbn [map]. by rewrite map_app, map_map.
Qed.

Lemma report_events_shape strftime s1 s2 records :
  ∃ printed,
    report_events strftime s1 s2 records
    = FileWritten (report_name strftime) (mkReport strftime s1 s2 records)
      :: map Stdout printed.
Proof.
  unfold report_events.
  destruct (sample_lines_stdout "parse but failed"
              (filter (λ t, expected t = "pass") records)) as [p1 ->].
  destruct (sample_lines_stdout "fail but parsed"
              (filter (λ t, expected t = "fail") records)) as [p2 ->].
  eexists (_ :: _ :: p1 ++ p2). cbn [app map]. by rewrite map_app.
Qed.

(** What [save_results] did when it returned a report name. *)
Lemma save_results_some_inv strftime rp rf sp sf t t' name :
  save_results strftime rp rf sp sf t = (t', ok (Some name)) →
  ∃ s1 s2,
    summary sp = ok s1 ∧ summary sf = ok s2
    ∧ failed_records rp rf ≠ []
    ∧ name = report_name strftime
    ∧ t' = t ++ report_events strftime s1 s2 (failed_records rp rf).
Proof.
  rewrite save_results_eq. case_bool_decide as Hne; [|discriminate].
  destruct (summary sp) as [e|s1]; [discriminate|].
  destruct (summary sf) as [e|s2]; [discriminate|].
  intros [= <- <-]. by exists s1, s2.
Qed.

Lemma process_directory_ok_inv fs oracle completion directory e extensions
    t t' rs stats :
  process_directory fs oracle completion directory e extensions t
  = (t', ok (rs, stats)) →
  (rs = [] ∧ stats = ∅)
  ∨ ∃ total, stats = mk_stats total
                       (Z.of_nat (length (agreements rs)))
                       (Z.of_nat (length (mismatches rs)))
                       (map file_path (mismatches rs)).
Proof.
  rewrite process_directory_eq. cbv zeta. case_bool_decide.
  - intros [= _ <- <-]. by left.
  - destruct (collect _) as [x|rs']; cbn [rbind ok]; [discriminate|].
    intros [= _ -> <-]. right. by eexists.
Qed.

Lemma mk_stats_has_summary total passed failed ff :
  has_summary (mk_stats total passed failed ff).
Proof. by repeat split; eexists. Qed.

Lemma empty_no_summary e : summary ∅ ≠ ok e.
Proof. done. Qed.

(** With both summaries at hand and a mismatch, the report is written. *)
Lemma report_written_events strftime rp rf sp sf t :
  has_summary sp → has_summary sf → mismatches (rp ++ rf) ≠ [] →
  ∃ evs, save_results strftime rp rf sp sf t
         = (t ++ evs, ok (Some (report_name strftime))).
Proof.
  intros (a1 & b1 & c1 & _ & _ & _ & Hs1)%summary_ok
         (a2 & b2 & c2 & _ & _ & _ & Hs2)%summary_ok Hm.
  rewrite save_results_eq, Hs1, Hs2.
  rewrite bool_decide_eq_true_2; [by eexists|].
  by rewrite failed_records_nil.
Qed.

(** C6: given two statistics dictionaries that carry their three summary
    entries, [save_results] writes one report file and returns its name
    exactly when some result of the two collections has
    [success == false]; without a mismatch it returns [None] and leaves the
    trace untouched (no file, no output). *)
Theorem report_written_iff_mismatch strftime rp rf sp sf t :
  has_summary sp → has_summary sf →
  ∃ evs out,
    save_results strftime rp rf sp sf t = (t ++ evs, ok out)
    ∧ (is_Some out ↔ mismatches (rp ++ rf) ≠ [])
    ∧ (mismatches (rp ++ rf) ≠ [] →
       out = Some (report_name strftime)
       ∧ ∃ content printed,
           evs = FileWritten (report_name strftime) content
                 :: map Stdout printed)
    ∧ (mismatches (rp ++ rf) = [] → out = None ∧ evs = []).
Proof.
  intros (a1 & b1 & c1 & _ & _ & _ & Hs1)%summary_ok
         (a2 & b2 & c2 & _ & _ & _ & Hs2)%summary_ok.
  rewrite save_results_eq, Hs1, Hs2.
  pose proof (failed_records_nil rp rf) as Hnil.
  case_bool_decide as Hne.
  - assert (Hm : mismatches (rp ++ rf) ≠ []) by (by rewrite <- Hnil).
    eexists _, _. split; [reflexivity|]. split; [by split|].
    split; [|done]. intros _. split; [done|].
    destruct (report_events_shape strftime (mkSummary a1 b1 c1)
                (mkSummary a2 b2 c2) (failed_records rp rf)) as [pr ->].
    by eexists _, _.
  - assert (Hm : mismatches (rp ++ rf) = []).
    { apply Hnil. by destruct (decide (failed_records rp rf = [])). }
    exists [], None. rewrite app_nil_r. split; [done|].
    split; [split; [by intros [? [=]]|done]|].
    split; done.
Qed.

Lemma report_written_iff_mismatch_witness :
  has_summary (mk_stats 3 1 2 ["a.ts"; "b.ts"])
  ∧ has_summary (mk_stats 0 0 0 [])
  ∧ ∃ evs out,
      save_results "20240102-030405" [fail_a; pass_c; fail_b] []
        (mk_stats 3 1 2 ["a.ts"; "b.ts"]) (mk_stats 0 0 0 []) []
      = ([] ++ evs, ok out)
      ∧ (is_Some out ↔ mismatches ([fail_a; pass_c; fail_b] ++ []) ≠ [])
      ∧ (mismatches ([fail_a; pass_c; fail_b] ++ []) ≠ [] →
         out = Some (report_name "20240102-030405")
         ∧ ∃ content printed,
             evs = FileWritten (report_name "20240102-030405") content
                   :: map Stdout printed)
      ∧ (mismatches ([fail_a; pass_c; fail_b] ++ []) = [] →
         out = None ∧ evs = []).
Proof.
  assert (H1 : has_summary (mk_stats 3 1 2 ["a.ts"; "b.ts"]))
    by (by repeat split; eexists).
  assert (H2 : has_summary (mk_stats 0 0 0 []))
    by (by repeat split; eexists).
  split; [exact H1|]. split; [exact H2|].
  exact (report_written_iff_mismatch "20240102-030405"
           [fail_a; pass_c; fail_b] [] _ _ [] H1 H2).
Defined.

(** C7: when [save_results] reports mismatches, what it prints after the
    two summary lines is one block per mismatch category (expected pass and
    got fail, then expected fail and got pass); each block lists the first
    five entries of its category at most, numbered in order, and, when the
    category has more than five entries, ends with the exact number of the
    entries beyond the first five. *)
Theorem sample_preview_capped strftime rp rf sp sf t t' name :
  save_results strftime rp rf sp sf t = (t', ok (Some name)) →
  ∃ content line1 line2 block_pass block_fail,
    t' = t ++ [FileWritten name content; Stdout line1; Stdout line2]
           ++ block_pass ++ block_fail
    ∧ filter (λ r, expected r = "pass") (failed_tests content)
      = map (record_of "pass" "fail") (mismatches rp)
    ∧ filter (λ r, expected r = "fail") (failed_tests content)
      = map (record_of "fail" "pass") (mismatches rf)
    ∧ capped_preview (filter (λ r, expected r = "pass") (failed_tests content))
                     block_pass
    ∧ capped_preview (filter (λ r, expected r = "fail") (failed_tests content))
                     block_fail.
Proof.
  intros (s1 & s2 & _ & _ & _ & -> & ->)%save_results_some_inv.
  unfold report_events. eexists _, _, _, _, _.
  split; [reflexivity|]. cbn [failed_tests].
  split; [apply filter_failed_records_pass|].
  split; [apply filter_failed_records_fail|].
  split; apply sample_lines_capped.
Qed.

Lemma sample_preview_capped_witness :
  ∃ t',
    save_results "20240102-030405" seven_fails []
      (mk_stats 7 0 7 []) (mk_stats 0 0 0 []) []
    = (t', ok (Some (report_name "20240102-030405")))
    ∧ ∃ content line1 line2 block_pass block_fail,
        t' = [] ++ [FileWritten (report_name "20240102-030405") content;
                    Stdout line1; Stdout line2]
                ++ block_pass ++ block_fail
        ∧ filter (λ r, expected r = "pass") (failed_tests content)
          = map (record_of "pass" "fail") (mismatches seven_fails)
        ∧ filter (λ r, expected r = "fail") (failed_tests content)
          = map (record_of "fail" "pass") (mismatches [])
        ∧ capped_preview
            (filter (λ r, expected r = "pass") (failed_tests content))
            block_pass
        ∧ capped_preview
            (filter (λ r, expected r = "fail") (failed_tests content))
            block_fail.
Proof.
  eexists. split; [vm_compute; reflexivity|].
  apply (sample_preview_capped "20240102-030405" seven_fails []
           (mk_stats 7 0 7 []) (mk_stats 0 0 0 []) []).
  vm_compute. reflexivity.
Defined.

(** C8: for the result collections and statistics that two runs of
    [process_directory] return, the report [save_results] writes holds one
    record per result with [success == false], in order, so the length of
    its [failed_tests] is the sum of the two [failed] counters; and such a
    report is written whenever both collections are non-empty and some
    result mismatches. *)
Theorem report_counts_failures fs oracle completion strftime
    dir_pass dir_fail extensions t0 t1 t2 t3 rp sp rf sf :
  process_directory fs oracle completion dir_pass true extensions t0
  = (t1, ok (rp, sp)) →
  process_directory fs oracle completion dir_fail false extensions t2
  = (t3, ok (rf, sf)) →
  (rp ≠ [] → rf ≠ [] → mismatches (rp ++ rf) ≠ [] →
   ∀ t, ∃ evs, save_results strftime rp rf sp sf t
               = (t ++ evs, ok (Some (report_name strftime))))
  ∧ (∀ t evs name,
       save_results strftime rp rf sp sf t = (t ++ evs, ok (Some name)) →
       ∃ content printed failed_pass failed_fail,
         evs = FileWritten name content :: map Stdout printed
         ∧ sp !! "failed" = Some (VInt failed_pass)
         ∧ sf !! "failed" = Some (VInt failed_fail)
         ∧ Z.of_nat (length (failed_tests content))
           = failed_pass + failed_fail
         ∧ map file (failed_tests content)
           = map file_path (mismatches rp ++ mismatches rf)).
Proof.
  intros Hp Hf.
  apply process_directory_ok_inv in Hp, Hf. split.
  - intros Hrp Hrf Hm t.
    destruct Hp as [[? _]|[totp ->]]; [done|].
    destruct Hf as [[? _]|[totf ->]]; [done|].
    apply report_written_events; [apply mk_stats_has_summary..|done].
  - intros t evs name (s1 & s2 & H1 & H2 & Hne & -> & Ht)%save_results_some_inv.
    apply app_inv_head in Ht as ->.
    destruct Hp as [[_ ->]|[totp ->]]; [by apply empty_no_summary in H1|].
    destruct Hf as [[_ ->]|[totf ->]]; [by apply empty_no_summary in H2|].
    destruct (report_events_shape strftime s1 s2 (failed_records rp rf))
      as [pr ->].
    eexists _, pr, _, _. split; [reflexivity|].
    split; [apply mk_stats_lookup_failed|].
    split; [apply mk_stats_lookup_failed|].
    cbn [failed_tests]. unfold failed_records. split.
    + rewrite length_app, !length_map. lia.
    + by rewrite !map_app, !map_map.
Qed.

Lemma report_counts_failures_witness :
  ∃ t1 rp sp t3 rf sf,
    process_directory corpus_fs oracle_ts_js id "corpus" true None []
    = (t1, ok (rp, sp))
    ∧ process_directory corpus_fs oracle_ts_js id "bad" false None []
      = (t3, ok (rf, sf))
    ∧ length (mismatches rp) = 1%nat ∧ length (mismatches rf) = 2%nat
    ∧ ∀ t evs name,
        save_results "20240102-030405" rp rf sp sf t
        = (t ++ evs, ok (Some name)) →
        ∃ content printed failed_pass failed_fail,
          evs = FileWritten name content :: map Stdout printed
          ∧ sp !! "failed" = Some (VInt failed_pass)
          ∧ sf !! "failed" = Some (VInt failed_fail)
          ∧ Z.of_nat (length (failed_tests content))
            = failed_pass + failed_fail
          ∧ map file (failed_tests content)
            = map file_path (mismatches rp ++ mismatches rf).
Proof.
  eexists _, _, _, _, _, _.
  split; [vm_compute; reflexivity|].
  split; [vm_compute; reflexivity|].
  split; [reflexivity|]. split; [reflexivity|].
  refine (proj2 (report_counts_failures corpus_fs oracle_ts_js id
                   "20240102-030405" "corpus" "bad" None [] _ [] _ _ _ _ _
                   _ _)).
  - vm_compute. reflexivity.
  - vm_compute. reflexivity.
Defined.

Lemma report_events_written strftime s1 s2 records name content :
  FileWritten name content ∈ report_events strftime s1 s2 records →
  name = report_name strftime ∧ content = mkReport strftime s1 s2 records.
Proof.
  destruct (report_events_shape strftime s1 s2 records) as [pr ->].
  intros [H|H]%elem_of_cons.
  - by injection H as -> ->.
  - apply list_elem_of_In, in_map_iff in H as (x & [=] & _).
Qed.

(** C9: in the report [save_results] writes, the records derived from the
    should-parse collection (expected ["pass"], actual ["fail"]) come first
    and the records derived from the should-not-parse collection (expected
    ["fail"], actual ["pass"]) come after them, each group in the order of
    its results; so every record's [actual] is the opposite of its
    [expected]. *)
Theorem report_records_shape strftime rp rf sp sf t evs name content :
  save_results strftime rp rf sp sf t = (t ++ evs, ok (Some name)) →
  FileWritten name content ∈ evs →
  ∃ from_pass from_fail,
    failed_tests content = from_pass ++ from_fail
    ∧ from_pass = map (λ r, mkFailed (file_path r) "pass" "fail")
                      (mismatches rp)
    ∧ from_fail = map (λ r, mkFailed (file_path r) "fail" "pass")
                      (mismatches rf)
    ∧ Forall (λ r, (expected r = "pass" ∧ actual r = "fail")
                   ∨ (expected r = "fail" ∧ actual r = "pass"))
             (failed_tests content).
Proof.
  intros (s1 & s2 & _ & _ & _ & -> & Ht)%save_results_some_inv Hin.
  apply app_inv_head in Ht as ->.
  apply report_events_written in Hin as [_ ->].
  eexists _, _. split; [reflexivity|]. split; [reflexivity|].
  split; [reflexivity|].
  cbn [failed_tests]. unfold failed_records. apply Forall_app. split.
  - apply Forall_forall. intros x (r & <- & _)%list_elem_of_In%in_map_iff.
    by left.
  - apply Forall_forall. intros x (r & <- & _)%list_elem_of_In%in_map_iff.
    by right.
Qed.

Lemma report_records_shape_witness :
  ∃ evs content,
    save_results "20240102-030405" [fail_a; pass_c; fail_b] [wrong_pass]
      (mk_stats 3 1 2 ["a.ts"; "b.ts"]) (mk_stats 1 0 1 ["c.js"]) []
    = ([] ++ evs, ok (Some (report_name "20240102-030405")))
    ∧ FileWritten (report_name "20240102-030405") content ∈ evs
    ∧ ∃ from_pass from_fail,
        failed_tests content = from_pass ++ from_fail
        ∧ from_pass = map (λ r, mkFailed (file_path r) "pass" "fail")
                          (mismatches [fail_a; pass_c; fail_b])
        ∧ from_fail = map (λ r, mkFailed (file_path r) "fail" "pass")
                          (mismatches [wrong_pass])
        ∧ Forall (λ r, (expected r = "pass" ∧ actual r = "fail")
                       ∨ (expected r = "fail" ∧ actual r = "pass"))
                 (failed_tests content).
Proof.
  eexists _, _.
  split; [vm_compute; reflexivity|]. split; [left|].
  eapply (report_records_shape "20240102-030405"
            [fail_a; pass_c; fail_b] [wrong_pass]
            (mk_stats 3 1 2 ["a.ts"; "b.ts"]) (mk_stats 1 0 1 ["c.js"]) []).
  - vm_compute. reflexivity.
  - left.
Defined.

(* ===================================================================== *)
(** * The whole run                                                       *)
(* ===================================================================== *)

(** A directory without matching files gives the empty dictionary. *)
Lemma process_directory_no_files fs oracle completion directory e extensions t :
  scanned fs directory extensions = [] →
  process_directory fs oracle completion directory e extensions t
  = ((find_files fs directory extensions t).1
       ++ [Stdout ("No files found in " +:+ directory)],
     ok ([], ∅)).
Proof.
  intros H. rewrite process_directory_eq. cbv zeta. rewrite H.
  by rewrite bool_decide_eq_true_2.
Qed.

(** [print_stats] on an empty should-parse dictionary. *)
Lemma print_stats_empty format_1f repr_str stats_should_fail t :
  print_stats format_1f repr_str ∅ stats_should_fail t
  = (t ++ [Stdout (nl +:+ "===== Test Results =====")],
     raise (KeyError "total")).
Proof. reflexivity. Qed.

(** Whatever the environment, a run whose should-parse directory yields no
    files ends in [KeyError: 'total']. *)
Lemma main_no_files_raises fs oracle completion strftime format_1f
    elapsed_2f repr_str dir_pass dir_fail extensions t :
  scanned fs dir_pass (Some extensions) = [] →
  scanned fs dir_fail (Some extensions) = [] →
  ∃ t', main fs oracle completion strftime format_1f elapsed_2f repr_str
             dir_pass dir_fail extensions t
        = (t', raise (KeyError "total")).
Proof.
  intros H1 H2. unfold main, bind. unfold print at 1 2 3. cbn [ok].
  rewrite (process_directory_no_files _ _ _ _ _ _ _ H1).
  cbv beta iota delta [ok]. unfold print at 1.
  rewrite (process_directory_no_files _ _ _ _ _ _ _ H2).
  cbv beta iota delta [ok].
  rewrite print_stats_empty. by eexists.
Qed.

(** C1 fails on the code: with two directories that do not exist, each
    [process_directory] returns the empty dictionary (no ["total"] entry),
    and [main] stops in [print_stats] with [KeyError: 'total'] instead of
    reporting a rate of 0%. *)
Theorem main_empty_corpora_raises :
  process_directory empty_fs oracle_ts_js id "missing_pass" true
    (Some default_extensions) []
  = ([Stdout "Error: Directory not found: missing_pass";
      Stdout "No files found in missing_pass"],
     ok ([], ∅))
  ∧ getitem ∅ "total" = raise (KeyError "total")
  ∧ main empty_fs oracle_ts_js id "20240102-030405" percent_1f "0.01" quoted
      "missing_pass" "missing_fail" default_extensions []
    = ([Stdout "Tree-sitter Grammar Tester";
        Stdout "Testing file extensions: .js, .ts, .tsx, .jsx";
        Stdout (nl +:+ "Processing files that should parse successfully...");
        Stdout "Error: Directory not found: missing_pass";
        Stdout "No files found in missing_pass";
        Stdout (nl +:+ "Processing files that should fail to parse...");
        Stdout "Error: Directory not found: missing_fail";
        Stdout "No files found in missing_fail";
        Stdout (nl +:+ "===== Test Results =====")],
       raise (KeyError "total")).
Proof. repeat split; vm_compute; reflexivity. Qed.

(* ===================================================================== *)
(** * The corpus scanner                                                  *)
(* ===================================================================== *)

Lemma chars_app a b : chars (a +:+ b) = chars a ++ chars b.
Proof.
  induction a as [|c a IH]; [done|].
  change (String c a +:+ b) with (String c (a +:+ b)).
  unfold chars in *. simpl. by rewrite IH.
Qed.

Lemma chars_inj a b : chars a = chars b → a = b.
Proof.
  intros H. rewrite <- (String.string_of_list_ascii_of_string a),
              <- (String.string_of_list_ascii_of_string b).
  unfold chars in H. by rewrite H.
Qed.

Lemma append_assoc a b c : (a +:+ b) +:+ c = a +:+ (b +:+ c).
Proof. apply chars_inj. by rewrite !chars_app, app_assoc. Qed.

Lemma append_empty_l a : "" +:+ a = a.
Proof. reflexivity. Qed.

Lemma endswith_suffix s ext :
  endswith s ext = true ↔ chars ext `suffix_of` chars s.
Proof. unfold endswith. by rewrite bool_decide_eq_true. Qed.

Lemma has_extension_spec extensions filename :
  has_extension extensions filename
  ↔ ∃ ext, ext ∈ extensions ∧ chars ext `suffix_of` chars filename.
Proof.
  unfold has_extension. rewrite existsb_exists. split.
  - intros (ext & Hin%list_elem_of_In & H%endswith_suffix). by exists ext.
  - intros (ext & Hin%list_elem_of_In & H%endswith_suffix). by exists ext.
Qed.

Lemma valid_name_no_leading_slash name :
  valid_name name → startswith name "/" = false.
Proof.
  intros [_ Hs]. unfold startswith. apply bool_decide_eq_false.
  intros [k Hk]. apply Hs. rewrite Hk. left.
Qed.

Lemma join_valid top name :
  valid_name name → join top name = dirprefix top +:+ name.
Proof.
  intros Hv. unfold join, dirprefix.
  rewrite (valid_name_no_leading_slash _ Hv).
  destruct (bool_decide (top = "") || endswith top "/"); [done|].
  by rewrite append_assoc.
Qed.

(** A non-empty list of characters without a slash, put after any prefix,
    does not end with a slash. *)
Lemma no_trailing_slash (p n : list ascii) :
  n ≠ [] → "/"%char ∉ n → ¬ ["/"%char] `suffix_of` (p ++ n).
Proof.
  intros Hne Hs [k Hk].
  destruct n as [|c n _] using rev_ind; [done|].
  rewrite app_assoc in Hk. apply app_inj_tail in Hk as [_ ->].
  apply Hs. apply elem_of_app. right. left.
Qed.

Lemma chars_nil s : chars s = [] → s = "".
Proof. by destruct s. Qed.

Lemma dirprefix_join top name :
  valid_name name →
  dirprefix (join top name) = dirprefix top +:+ name +:+ "/".
Proof.
  intros Hv. rewrite (join_valid _ _ Hv). destruct Hv as [Hne Hs].
  unfold dirprefix at 1.
  rewrite bool_decide_eq_false_2.
  - cbn [orb]. destruct (endswith _ "/") eqn:E.
    + apply endswith_suffix in E. rewrite chars_app in E.
      apply no_trailing_slash in E; [done| |done].
      intros H. by apply chars_nil in H.
    + apply append_assoc.
  - intros H. apply (f_equal chars) in H. rewrite chars_app in H.
    apply app_eq_nil in H as [_ H]. by apply chars_nil in H.
Qed.

(** Two paths that agree and both start with a slash-free name followed by
    a slash start with the same name. *)
Lemma first_component_inj n1 n2 r1 r2 :
  "/"%char ∉ chars n1 → "/"%char ∉ chars n2 →
  n1 +:+ "/" +:+ r1 = n2 +:+ "/" +:+ r2 → n1 = n2.
Proof.
  intros H1 H2 E. apply chars_inj.
  apply (f_equal chars) in E. rewrite !chars_app in E.
  change (chars "/") with ["/"%char] in E. cbn [app] in E.
  revert E H1 H2. generalize (chars n1) (chars n2) (chars r1) (chars r2).
  clear. intros l1. induction l1 as [|a l1 IH]; intros [|b l2] x y E H1 H2.
  - done.
  - injection E as <- _. destruct H2. left.
  - injection E as -> _. destruct H1. left.
  - injection E as -> E. f_equal.
    apply (IH l2 x y E).
    + intros H. apply H1. by right.
    + intros H. apply H2. by right.
Qed.

Lemma below_has_slash name r : "/"%char ∈ chars (name +:+ "/" +:+ r).
Proof.
  rewrite !chars_app. apply elem_of_app. right. apply elem_of_app. left.
  left.
Qed.

Lemma wf_tree_inv dirs filenames :
  wf_tree (Dir dirs filenames) →
  NoDup (map fst dirs) ∧ NoDup filenames
  ∧ Forall valid_name (map fst dirs) ∧ Forall valid_name filenames
  ∧ Forall (λ d, wf_tree d.2) dirs.
Proof. by inversion 1. Qed.

Lemma flat_map_flat_map {A B C} (f : A → list B) (g : B → list C) l :
  flat_map g (flat_map f l) = flat_map (λ x, flat_map g (f x)) l.
Proof.
  induction l as [|x l IH]; [done|].
  cbn [flat_map]. by rewrite flat_map_app, IH.
Qed.

Lemma map_flat_map {A B C} (f : A → list B) (g : B → C) l :
  map g (flat_map f l) = flat_map (λ x, map g (f x)) l.
Proof.
  induction l as [|x l IH]; [done|].
  cbn [flat_map]. by rewrite map_app, IH.
Qed.

Lemma flat_map_ext_Forall {A B} (f g : A → list B) l :
  Forall (λ x, f x = g x) l → flat_map f l = flat_map g l.
Proof. induction 1 as [|x l H _ IH]; [done|]. cbn. by rewrite H, IH. Qed.

Lemma map_ext_Forall {A B} (f g : A → B) l :
  Forall (λ x, f x = g x) l → map f l = map g l.
Proof. induction 1 as [|x l H _ IH]; [done|]. cbn. by rewrite H, IH. Qed.

(** The paths of all the files of a walk are the relative paths, each
    after the prefix of the top directory. *)
Lemma walk_paths t top :
  wf_tree t →
  flat_map all_files (walk top t)
  = map (String.append (dirprefix top)) (rel_paths t).
Proof.
  revert top. induction t as [dirs filenames IH] using tree_nested_ind.
  intros top (_ & _ & Hdn & Hfn & Hsub)%wf_tree_inv.
  cbn [walk rel_paths flat_map]. unfold all_files at 1. cbn [fst snd].
  rewrite map_app. f_equal.
  - apply map_ext_Forall. eapply Forall_impl; [exact Hfn|].
    intros f Hf. by apply join_valid.
  - rewrite flat_map_flat_map, map_flat_map.
    apply flat_map_ext_Forall.
    apply Forall_fmap in Hdn.
    clear -IH Hdn Hsub.
    induction dirs as [|[name sub] dirs IHd]; [done|].
    apply Forall_cons in IH as [IH1 IH], Hdn as [Hn Hdn], Hsub as [Hs Hsub].
    constructor; [|by apply IHd].
    cbn [fst snd] in *.
    rewrite (IH1 _ Hs), map_map, (dirprefix_join _ _ Hn).
    apply map_ext. intros r. by rewrite !append_assoc.
Qed.

Lemma rel_paths_below_slash (dirs : list (string * tree)) x :
  x ∈ flat_map (λ d, map (String.append (d.1 +:+ "/")) (rel_paths d.2)) dirs →
  ∃ name r, name ∈ map fst dirs ∧ x = name +:+ "/" +:+ r.
Proof.
  intros (d & Hd & (r & <- & _)%in_map_iff)%list_elem_of_In%in_flat_map.
  exists d.1, r. split; [|by rewrite append_assoc].
  apply list_elem_of_In, in_map, Hd.
Qed.

Lemma rel_paths_NoDup t : wf_tree t → NoDup (rel_paths t).
Proof.
  induction t as [dirs filenames IH] using tree_nested_ind.
  intros (Hnd & Hnf & Hdn & Hfn & Hsub)%wf_tree_inv.
  cbn [rel_paths]. apply NoDup_app. split; [done|]. split.
  - intros x Hx (name & r & _ & ->)%rel_paths_below_slash.
    rewrite Forall_forall in Hfn. destruct (Hfn _ Hx) as [_ Hs].
    apply Hs, below_has_slash.
  - clear Hnf Hfn. induction dirs as [|[name sub] dirs IHd]; [constructor|].
    cbn [map fst] in Hnd, Hdn.
    apply NoDup_cons in Hnd as [Hfresh Hnd].
    apply Forall_cons in IH as [IH1 IH], Hdn as [Hn Hdn], Hsub as [Hs Hsub].
    cbn [flat_map fst snd] in *. apply NoDup_app. split; [|split].
    + change (map ?f ?l) with (f <$> l).
      apply (NoDup_fmap_2 _), IH1, Hs.
    + intros x (r & <- & _)%list_elem_of_In%in_map_iff
             (name' & r' & Hin & E)%rel_paths_below_slash.
      rewrite append_assoc in E.
      apply first_component_inj in E as ->; [done|apply Hn|].
      rewrite Forall_forall in Hdn. apply (Hdn _ Hin).
    + by apply IHd.
Qed.

Lemma walk_unfold top dirs filenames :
  walk top (Dir dirs filenames)
  = (top, map fst dirs, filenames)
    :: flat_map (λ d, walk (join top d.1) d.2) dirs.
Proof. reflexivity. Qed.

(** The files of a tree are the files the triples of its walk list. *)
Lemma tree_file_walk t top root filename :
  tree_file top t root filename
  ↔ ∃ ds filenames, (root, ds, filenames) ∈ walk top t
                    ∧ filename ∈ filenames.
Proof.
  split.
  - induction 1 as [top dirs filenames filename Hin
                   |top dirs filenames name sub root filename Hin _ IH].
    + exists (map fst dirs), filenames. split; [left|done].
    + destruct IH as (ds & fns & Hw & Hf). exists ds, fns. split; [|done].
      rewrite walk_unfold. right.
      apply list_elem_of_In, in_flat_map. exists (name, sub).
      split; by apply list_elem_of_In.
  - revert top. induction t as [dirs filenames IH] using tree_nested_ind.
    intros top (ds & fns & Hw & Hf). rewrite walk_unfold in Hw.
    apply elem_of_cons in Hw as [[= -> -> ->]|Hw].
    + by constructor.
    + apply list_elem_of_In, in_flat_map in Hw as ([name sub] & Hd & Hw).
      apply list_elem_of_In in Hd, Hw.
      rewrite Forall_forall in IH.
      apply (file_below _ _ _ name sub); [done|].
      apply (IH _ Hd). by exists ds, fns.
Qed.

Lemma scan_filenames_eq extensions files entry :
  scan_filenames extensions files entry
  = files ++ selected extensions entry.
Proof.
  destruct entry as [[root ds] filenames]. unfold scan_filenames, selected.
  cbn [fst snd]. revert files.
  induction filenames as [|f filenames IH]; intros files; cbn [foldl].
  - by rewrite app_nil_r.
  - rewrite IH. destruct (existsb (endswith f) extensions) eqn:E.
    + rewrite filter_cons_True by done. cbn [map]. by rewrite <- app_assoc.
    + rewrite filter_cons_False; [done|].
      unfold has_extension. by rewrite E.
Qed.

Lemma scan_walk_eq extensions files entries :
  foldl (scan_filenames extensions) files entries
  = files ++ flat_map (selected extensions) entries.
Proof.
  revert files. induction entries as [|entry entries IH]; intros files.
  - cbn. by rewrite app_nil_r.
  - cbn [foldl flat_map]. by rewrite IH, scan_filenames_eq, <- app_assoc.
Qed.

Lemma selected_sublist extensions entry :
  selected extensions entry `sublist_of` all_files entry.
Proof.
  unfold selected, all_files.
  change (map ?f ?l) with (f <$> l).
  apply fmap_sublist, sublist_filter.
Qed.

Lemma flat_map_sublist {A B} (f g : A → list B) l :
  (∀ x, f x `sublist_of` g x) → flat_map f l `sublist_of` flat_map g l.
Proof.
  intros H. induction l as [|x l IH]; [done|].
  cbn [flat_map]. by apply sublist_app.
Qed.

(** On a well-formed tree the scanner returns no path twice. *)
Lemma scanned_walk_NoDup extensions top t :
  wf_tree t → NoDup (flat_map (selected extensions) (walk top t)).
Proof.
  intros Hwf.
  apply (sublist_NoDup _ (flat_map all_files (walk top t))).
  - rewrite (walk_paths _ _ Hwf). change (map ?f ?l) with (f <$> l).
    apply (NoDup_fmap_2 _), rel_paths_NoDup, Hwf.
  - apply flat_map_sublist, selected_sublist.
Qed.

Lemma elem_of_selected extensions root ds filenames p :
  p ∈ selected extensions (root, ds, filenames)
  ↔ ∃ filename, p = join root filename ∧ filename ∈ filenames
                ∧ has_extension extensions filename.
Proof.
  unfold selected. cbn [fst snd]. rewrite list_elem_of_In, in_map_iff.
  split.
  - intros (f & <- & [Hx Hf]%list_elem_of_In%list_elem_of_filter).
    by exists f.
  - intros (f & -> & Hf & Hx). exists f. split; [done|].
    by apply list_elem_of_In, list_elem_of_filter.
Qed.

Lemma NoDup_once {A} (l : list A) x :
  NoDup l → x ∈ l → ∃ l1 l2, l = l1 ++ (x :: l2) ∧ (x ∉ l1) ∧ (x ∉ l2).
Proof.
  intros Hnd (l1 & l2 & ->)%list_elem_of_split. exists l1, l2.
  split; [done|].
  apply NoDup_app in Hnd as (_ & H1 & [H2 _]%NoDup_cons).
  split; [|done]. intros Hin. apply (H1 _ Hin). left.
Qed.

Lemma scanned_dir fs directory extensions t :
  fs directory = Some (IsDir t) →
  scanned fs directory extensions
  = flat_map (selected (default default_extensions extensions))
             (walk directory t).
Proof.
  intros H. unfold scanned, os_walk. rewrite H. by rewrite scan_walk_eq.
Qed.

(** C10: on a well-formed directory tree, every path [find_files] returns
    is the path of a file of the tree whose name ends with one of the
    extensions, and the path of every file of the tree whose name ends with
    one of the extensions occurs in the returned list exactly once. *)
Theorem find_files_exactly_matching fs directory extensions tr t t' files :
  fs directory = Some (IsDir tr) →
  wf_tree tr →
  find_files fs directory extensions t = (t', ok files) →
  (∀ p, p ∈ files →
     ∃ root filename ext,
       tree_file directory tr root filename
       ∧ p = join root filename
       ∧ ext ∈ default default_extensions extensions
       ∧ chars ext `suffix_of` chars filename)
  ∧ (∀ root filename ext,
       tree_file directory tr root filename →
       ext ∈ default default_extensions extensions →
       chars ext `suffix_of` chars filename →
       ∃ before after,
         files = before ++ (join root filename :: after)
         ∧ (join root filename ∉ before)
         ∧ (join root filename ∉ after)).
Proof.
  intros Hfs Hwf. rewrite find_files_eq, (scanned_dir _ _ _ _ Hfs).
  intros [= _ <-]. split.
  - intros p ([[root ds] fns] & Hw & Hp)%list_elem_of_In%in_flat_map.
    apply list_elem_of_In in Hw, Hp.
    apply elem_of_selected in Hp as (f & -> & Hf & (ext & He & Hs)%has_extension_spec).
    exists root, f, ext. split; [|done].
    apply tree_file_walk. by exists ds, fns.
  - intros root filename ext (ds & fns & Hw & Hf)%tree_file_walk He Hs.
    apply NoDup_once; [by apply scanned_walk_NoDup|].
    apply list_elem_of_In, in_flat_map. exists (root, ds, fns).
    split; [by apply list_elem_of_In|].
    apply list_elem_of_In, elem_of_selected. exists filename.
    split; [done|]. split; [done|].
    apply has_extension_spec. by exists ext.
Qed.

Lemma find_files_exactly_matching_witness :
  corpus_fs "corpus" = Some (IsDir corpus_tree)
  ∧ wf_tree corpus_tree
  ∧ find_files corpus_fs "corpus" None []
    = ([], ok ["corpus/a.ts"; "corpus/sub/b.tsx"])
  ∧ (∀ p, p ∈ ["corpus/a.ts"; "corpus/sub/b.tsx"] →
       ∃ root filename ext,
         tree_file "corpus" corpus_tree root filename
         ∧ p = join root filename
         ∧ ext ∈ default_extensions
         ∧ chars ext `suffix_of` chars filename)
  ∧ (∀ root filename ext,
       tree_file "corpus" corpus_tree root filename →
       ext ∈ default_extensions →
       chars ext `suffix_of` chars filename →
       ∃ before after,
         ["corpus/a.ts"; "corpus/sub/b.tsx"]
         = before ++ (join root filename :: after)
         ∧ (join root filename ∉ before)
         ∧ (join root filename ∉ after)).
Proof.
  assert (Hfs : corpus_fs "corpus" = Some (IsDir corpus_tree))
    by reflexivity.
  assert (Hwf : wf_tree corpus_tree).
  { apply wf_Dir;
      [apply (bool_decide_unpack _); vm_compute; exact I ..|].
    repeat apply List.Forall_cons; [| |apply List.Forall_nil].
    - apply wf_Dir;
        [apply (bool_decide_unpack _); vm_compute; exact I ..
        |apply List.Forall_nil].
    - apply wf_Dir;
        [apply (bool_decide_unpack _); vm_compute; exact I ..
        |apply List.Forall_nil]. }
  assert (Hrun : find_files corpus_fs "corpus" None []
                 = ([], ok ["corpus/a.ts"; "corpus/sub/b.tsx"]))
    by (vm_compute; reflexivity).
  split; [exact Hfs|]. split; [exact Hwf|]. split; [exact Hrun|].
  exact (find_files_exactly_matching corpus_fs "corpus" None corpus_tree
           [] [] _ Hfs Hwf Hrun).
Defined.

(* ===================================================================== *)
(** * Further properties of the corpus scanner                            *)
(* ===================================================================== *)

Lemma scanned_eq fs directory extensions :
  scanned fs directory extensions
  = flat_map (selected (default default_extensions extensions))
             (os_walk fs directory).
Proof. unfold scanned. by rewrite scan_walk_eq. Qed.

(** X1: when the path does not name a directory, [find_files] returns the
    empty list without raising; it prints the error line exactly when the
    path names nothing at all (a regular file gives the empty list
    silently). *)
Theorem find_files_not_a_directory fs directory extensions t :
  (∀ tr, fs directory ≠ Some (IsDir tr)) →
  find_files fs directory extensions t
  = (if decide (fs directory = None)
     then t ++ [Stdout ("Error: Directory not found: " +:+ directory)]
     else t,
     ok []).
Proof.
  intros Hnd. rewrite find_files_eq, scanned_eq.
  unfold path_exists, os_walk.
  destruct (fs directory) as [[|tr]|] eqn:E.
  - rewrite bool_decide_eq_true_2 by (by eexists). by rewrite decide_False.
  - by destruct (Hnd tr).
  - rewrite bool_decide_eq_false_2 by (by intros [? [=]]).
    by rewrite decide_True.
Qed.

Lemma find_files_not_a_directory_witness :
  (∀ tr, file_fs "notes.txt" ≠ Some (IsDir tr))
  ∧ find_files file_fs "notes.txt" None [] = ([], ok []).
Proof.
  assert (H : ∀ tr, file_fs "notes.txt" ≠ Some (IsDir tr)) by done.
  split; [exact H|].
  exact (find_files_not_a_directory file_fs "notes.txt" None [] H).
Defined.

Lemma rel_paths_nonempty dirs filenames rel :
  Forall valid_name filenames →
  rel ∈ rel_paths (Dir dirs filenames) → rel ≠ "".
Proof.
  intros Hfn. cbn [rel_paths]. intros [Hin|Hin]%elem_of_app.
  - rewrite Forall_forall in Hfn. by destruct (Hfn _ Hin).
  - apply rel_paths_below_slash in Hin as (name & r & _ & ->).
    intros E. pose proof (below_has_slash name r) as Hs.
    rewrite E in Hs. by apply elem_of_nil in Hs.
Qed.

(** X2: on a well-formed directory tree, every path [find_files] returns
    lies under the directory it was given: it is the directory (followed by
    a slash unless it is empty or already ends with one) followed by a
    non-empty relative path. *)
Theorem find_files_under_directory fs directory extensions tr t t' files :
  fs directory = Some (IsDir tr) →
  wf_tree tr →
  find_files fs directory extensions t = (t', ok files) →
  ∀ p, p ∈ files →
    ∃ rel, rel ≠ "" ∧ p = dirprefix directory +:+ rel.
Proof.
  intros Hfs Hwf. rewrite find_files_eq, (scanned_dir _ _ _ _ Hfs).
  intros [= _ <-] p Hp.
  assert (Hall : p ∈ flat_map all_files (walk directory tr)).
  { eapply sublist_subseteq; [|exact Hp].
    apply flat_map_sublist, selected_sublist. }
  rewrite (walk_paths _ _ Hwf) in Hall.
  apply list_elem_of_In, in_map_iff in Hall as (rel & <- & Hrel).
  exists rel. split; [|done].
  destruct tr as [dirs filenames].
  apply wf_tree_inv in Hwf as (_ & _ & _ & Hfn & _).
  eapply rel_paths_nonempty; [exact Hfn|]. by apply list_elem_of_In.
Qed.

Lemma corpus_tree_wf : wf_tree corpus_tree.
Proof.
  apply wf_Dir;
    [apply (bool_decide_unpack _); vm_compute; exact I ..|].
  repeat apply List.Forall_cons; [| |apply List.Forall_nil].
  - apply wf_Dir;
      [apply (bool_decide_unpack _); vm_compute; exact I ..
      |apply List.Forall_nil].
  - apply wf_Dir;
      [apply (bool_decide_unpack _); vm_compute; exact I ..
      |apply List.Forall_nil].
Defined.

Lemma find_files_under_directory_witness :
  corpus_fs "corpus" = Some (IsDir corpus_tree)
  ∧ wf_tree corpus_tree
  ∧ find_files corpus_fs "corpus" None []
    = ([], ok ["corpus/a.ts"; "corpus/sub/b.tsx"])
  ∧ ∀ p, p ∈ ["corpus/a.ts"; "corpus/sub/b.tsx"] →
      ∃ rel, rel ≠ "" ∧ p = dirprefix "corpus" +:+ rel.
Proof.
  assert (Hfs : corpus_fs "corpus" = Some (IsDir corpus_tree))
    by reflexivity.
  assert (Hrun : find_files corpus_fs "corpus" None []
                 = ([], ok ["corpus/a.ts"; "corpus/sub/b.tsx"]))
    by (vm_compute; reflexivity).
  split; [exact Hfs|]. split; [exact corpus_tree_wf|]. split; [exact Hrun|].
  exact (find_files_under_directory corpus_fs "corpus" None corpus_tree
           [] [] _ Hfs corpus_tree_wf Hrun).
Defined.

Lemma filter_sublist_impl {A} (P Q : A → Prop)
    `{!∀ x, Decision (P x)} `{!∀ x, Decision (Q x)} (l : list A) :
  (∀ x, P x → Q x) → filter P l `sublist_of` filter Q l.
Proof.
  intros Himp. induction l as [|x l IH]; [done|].
  rewrite !filter_cons. destruct (decide (P x)) as [HP|HP].
  - rewrite decide_True by auto. by constructor.
  - destruct (decide (Q x)); [by constructor|done].
Qed.

Lemma has_extension_mono exts exts' filename :
  exts ⊆ exts' → has_extension exts filename → has_extension exts' filename.
Proof.
  intros Hsub (ext & Hin & Hs)%has_extension_spec.
  apply has_extension_spec. exists ext. split; [by apply Hsub|done].
Qed.

(** X3: asking for more extensions only adds paths: the list returned for
    a list of extensions is a sub-list (same relative order) of the list
    returned for any list of extensions that contains them. *)
Theorem find_files_more_extensions fs directory exts exts' t :
  exts ⊆ exts' →
  ∃ t1 t2 files files',
    find_files fs directory (Some exts) t = (t1, ok files)
    ∧ find_files fs directory (Some exts') t = (t2, ok files')
    ∧ files `sublist_of` files'.
Proof.
  intros Hsub. rewrite !find_files_eq, !scanned_eq.
  eexists _, _, _, _. split; [reflexivity|]. split; [reflexivity|].
  apply flat_map_sublist. intros [[root ds] fns]. unfold selected.
  change (map ?f ?l) with (f <$> l). apply fmap_sublist.
  apply filter_sublist_impl. intros f. by apply has_extension_mono.
Qed.

Lemma find_files_more_extensions_witness :
  [".ts"] ⊆ [".tsx"; ".ts"]
  ∧ ∃ t1 t2 files files',
      find_files corpus_fs "corpus" (Some [".ts"]) [] = (t1, ok files)
      ∧ find_files corpus_fs "corpus" (Some [".tsx"; ".ts"]) []
        = (t2, ok files')
      ∧ files `sublist_of` files'.
Proof.
  assert (H : [".ts"] ⊆ [".tsx"; ".ts"]).
  { intros x ->%list_elem_of_singleton. right. left. }
  split; [exact H|].
  exact (find_files_more_extensions corpus_fs "corpus" _ _ [] H).
Defined.

(** X4: with an empty list of extensions [find_files] returns no path,
    whatever the directory holds (the absent list stands for the four
    defaults, the empty list for none). *)
Theorem find_files_no_extensions fs directory t :
  ∃ t', find_files fs directory (Some []) t = (t', ok []).
Proof.
  rewrite find_files_eq, scanned_eq. eexists. f_equal. f_equal.
  induction (os_walk fs directory) as [|[[root ds] fns] entries IH];
    [done|].
  cbn [flat_map]. rewrite IH, app_nil_r. unfold selected. cbn [fst snd default].
  induction fns as [|f fns IHf]; [done|].
  rewrite filter_cons_False by done. exact IHf.
Qed.

(** X5: an empty string among the extensions selects every file: the
    result is then the list of the paths of all the files of the walk. *)
Theorem find_files_empty_suffix fs directory exts t :
  "" ∈ exts →
  ∃ t', find_files fs directory (Some exts) t
        = (t', ok (flat_map all_files (os_walk fs directory))).
Proof.
  intros Hin. rewrite find_files_eq, scanned_eq. eexists. f_equal. f_equal.
  apply flat_map_ext. intros [[root ds] fns]. unfold selected, all_files.
  cbn [fst snd default]. f_equal.
  induction fns as [|f fns IHf]; [done|].
  rewrite filter_cons_True, IHf; [done|].
  apply has_extension_spec. exists "". split; [done|].
  by exists (chars f); rewrite app_nil_r.
Qed.

Lemma find_files_empty_suffix_witness :
  "" ∈ [".ts"; ""]
  ∧ ∃ t', find_files corpus_fs "corpus" (Some [".ts"; ""]) []
          = (t', ok ["corpus/a.ts"; "corpus/README"; "corpus/sub/b.tsx";
                     "corpus/sub/notes.md"]).
Proof.
  assert (H : "" ∈ [".ts"; ""]) by (right; left).
  split; [exact H|].
  exact (find_files_empty_suffix corpus_fs "corpus" _ [] H).
Defined.

(* ===================================================================== *)
(** * Further properties of the batch                                     *)
(* ===================================================================== *)

Lemma test_file_ok_inv oracle task r :
  test_file oracle task = ok r →
  file_path r = task.1 ∧ expected_success r = task.2
  ∧ ∃ rc, oracle task.1 = Exited rc
          ∧ actual_success r = bool_decide (rc = 0)
          ∧ success r = bool_decide (task.2 = bool_decide (rc = 0)).
Proof.
  destruct task as [fp e]. unfold test_file, subprocess_run.
  destruct (oracle fp) as [rc|] eqn:E; cbn; [|discriminate].
  intros [= <-]. cbn. split; [done|]. split; [done|]. by exists rc.
Qed.

Lemma map_ok_pointwise {A B C} (f : A → result B) (g : B → C) (h : A → C)
    (ys : list B) (xs : list A) :
  map ok ys = map f xs →
  (∀ x y, f x = ok y → g y = h x) →
  map g ys = map h xs.
Proof.
  intros E H. revert xs E. induction ys as [|y ys IH]; intros [|x xs] E;
    try discriminate; [done|].
  cbn in E. injection E as E1 E2. cbn. f_equal; [|by apply IH].
  by apply H.
Qed.

Lemma tasks_of_fst files e : map fst (tasks_of files e) = files.
Proof.
  unfold tasks_of. rewrite map_map. cbn. apply map_id.
Qed.

(** X6: when [process_directory] returns for a directory with files, it
    has printed the one line that announces the batch; the results are the
    task results in completion order, one per file (their paths are a
    permutation of the files found), each carrying the expected verdict of
    the directory; and the statistics count exactly them: [total] is the
    number of files, [passed] the number of agreeing results, [failed] the
    number of mismatching ones, and [failed_files] their paths in order of
    arrival. *)
Theorem process_directory_results fs oracle completion directory e
    extensions t t0 files t' results stats :
  (∀ l, completion l ≡ₚ l) →
  find_files fs directory extensions t = (t0, ok files) →
  files ≠ [] →
  process_directory fs oracle completion directory e extensions t
  = (t', ok (results, stats)) →
  t' = t0 ++ [Stdout ("Testing " +:+ pretty (length files) +:+
                      " files in " +:+ directory)]
  ∧ map ok results
    = map (test_file oracle) (completion (tasks_of files e))
  ∧ map file_path results ≡ₚ files
  ∧ Forall (λ r, expected_success r = e) results
  ∧ stats = mk_stats (Z.of_nat (length files))
                     (Z.of_nat (length (agreements results)))
                     (Z.of_nat (length (mismatches results)))
                     (map file_path (mismatches results)).
Proof.
  intros Hperm Hfind Hne. rewrite process_directory_eq. cbv zeta.
  rewrite Hfind. rewrite find_files_eq in Hfind.
  injection Hfind as _ ->. cbn [fst].
  rewrite bool_decide_eq_false_2 by done.
  destruct (collect _) as [x|rs] eqn:E; cbn [rbind ok]; [discriminate|].
  intros [= <- -> <-]. apply collect_ok_inv in E.
  split; [done|]. split; [done|]. split; [|split; [|done]].
  - rewrite (map_ok_pointwise _ file_path fst _ _ (eq_sym E)).
    + by rewrite (Permutation_map fst (Hperm _)), tasks_of_fst.
    + intros task r Hr. by apply test_file_ok_inv in Hr as (? & _).
  - apply Forall_forall. intros r Hr.
    apply list_elem_of_In, (in_map ok) in Hr. rewrite <- E in Hr.
    apply in_map_iff in Hr as ([fp e'] & Ht & Hin).
    apply list_elem_of_In in Hin. rewrite Hperm in Hin.
    apply elem_of_tasks_of in Hin as [_ ->].
    by apply test_file_ok_inv in Ht as (_ & ? & _).
Qed.

Lemma process_directory_results_witness :
  (∀ l : list (string * bool), reverse l ≡ₚ l)
  ∧ find_files corpus_fs "corpus" None []
    = ([], ok ["corpus/a.ts"; "corpus/sub/b.tsx"])
  ∧ ["corpus/a.ts"; "corpus/sub/b.tsx"] ≠ []
  ∧ process_directory corpus_fs oracle_ts_js reverse "corpus" true None []
    = ([Stdout "Testing 2 files in corpus"],
       ok ([mkTaskResult "corpus/sub/b.tsx" true false false;
            mkTaskResult "corpus/a.ts" true true true],
           mk_stats 2 1 1 ["corpus/sub/b.tsx"]))
  ∧ map file_path [mkTaskResult "corpus/sub/b.tsx" true false false;
                   mkTaskResult "corpus/a.ts" true true true]
    ≡ₚ ["corpus/a.ts"; "corpus/sub/b.tsx"]
  ∧ Forall (λ r, expected_success r = true)
           [mkTaskResult "corpus/sub/b.tsx" true false false;
            mkTaskResult "corpus/a.ts" true true true].
Proof.
  assert (Hperm : ∀ l : list (string * bool), reverse l ≡ₚ l)
    by (intros l; apply reverse_Permutation).
  assert (Hfind : find_files corpus_fs "corpus" None []
                  = ([], ok ["corpus/a.ts"; "corpus/sub/b.tsx"]))
    by (vm_compute; reflexivity).
  assert (Hne : ["corpus/a.ts"; "corpus/sub/b.tsx"] ≠ []) by discriminate.
  assert (Hrun : process_directory corpus_fs oracle_ts_js reverse
                   "corpus" true None []
                 = ([Stdout "Testing 2 files in corpus"],
                    ok ([mkTaskResult "corpus/sub/b.tsx" true false false;
                         mkTaskResult "corpus/a.ts" true true true],
                        mk_stats 2 1 1 ["corpus/sub/b.tsx"])))
    by (vm_compute; reflexivity).
  split; [exact Hperm|]. split; [exact Hfind|]. split; [exact Hne|].
  split; [exact Hrun|].
  destruct (process_directory_results corpus_fs oracle_ts_js reverse
              "corpus" true None [] [] _ _ _ _ Hperm Hfind Hne Hrun)
    as (_ & _ & H3 & H4 & _).
  split; [exact H3|exact H4].
Defined.

(** X7: the only exception [process_directory] raises is the one of an
    oracle process that could not be started, for one of the files found;
    updating the statistics never fails. *)
Theorem process_directory_raises_only_spawn fs oracle completion directory e
    extensions t t0 files t' x :
  (∀ l, completion l ≡ₚ l) →
  find_files fs directory extensions t = (t0, ok files) →
  process_directory fs oracle completion directory e extensions t
  = (t', raise x) →
  x = FileNotFoundError "tree-sitter"
  ∧ ∃ fp, fp ∈ files ∧ oracle fp = SpawnFailed.
Proof.
  intros Hperm Hfind. rewrite process_directory_eq. cbv zeta.
  rewrite find_files_eq in Hfind. injection Hfind as _ ->.
  case_bool_decide; [discriminate|].
  destruct (collect _) as [x'|rs] eqn:E; cbn [rbind ok]; [|discriminate].
  intros [= _ ->].
  apply collect_raise_elem, list_elem_of_In, in_map_iff in E
    as ([fp e'] & Ht & Hin).
  apply list_elem_of_In in Hin. rewrite Hperm in Hin.
  apply elem_of_tasks_of in Hin as [Hin ->].
  split; [by apply test_file_raise_inv in Ht|].
  exists fp. split; [done|].
  unfold test_file, subprocess_run in Ht. by destruct (oracle fp).
Qed.

Lemma process_directory_raises_only_spawn_witness :
  (∀ l : list (string * bool), id l ≡ₚ l)
  ∧ find_files corpus_fs "corpus" None []
    = ([], ok ["corpus/a.ts"; "corpus/sub/b.tsx"])
  ∧ process_directory corpus_fs oracle_flaky id "corpus" true None []
    = ([Stdout "Testing 2 files in corpus"],
       raise (FileNotFoundError "tree-sitter"))
  ∧ FileNotFoundError "tree-sitter" = FileNotFoundError "tree-sitter"
  ∧ ∃ fp, fp ∈ ["corpus/a.ts"; "corpus/sub/b.tsx"]
          ∧ oracle_flaky fp = SpawnFailed.
Proof.
  assert (Hperm : ∀ l : list (string * bool), id l ≡ₚ l) by reflexivity.
  assert (Hfind : find_files corpus_fs "corpus" None []
                  = ([], ok ["corpus/a.ts"; "corpus/sub/b.tsx"]))
    by (vm_compute; reflexivity).
  assert (Hrun : process_directory corpus_fs oracle_flaky id "corpus" true
                   None []
                 = ([Stdout "Testing 2 files in corpus"],
                    raise (FileNotFoundError "tree-sitter")))
    by (vm_compute; reflexivity).
  split; [exact Hperm|]. split; [exact Hfind|]. split; [exact Hrun|].
  exact (process_directory_raises_only_spawn corpus_fs oracle_flaky id
           "corpus" true None [] [] _ _ _ Hperm Hfind Hrun).
Defined.

(* ===================================================================== *)
(** * Further properties of the statistics printer                        *)
(* ===================================================================== *)

Lemma stdout_only_ret {A} (x : A) : stdout_only (ret x).
Proof. intros t. exists []. cbn. by rewrite app_nil_r. Qed.

Lemma stdout_only_lift {A} (c : result A) : stdout_only (lift c).
Proof. intros t. exists []. cbn. by rewrite app_nil_r. Qed.

Lemma stdout_only_print line : stdout_only (print line).
Proof. intros t. by exists [line]. Qed.

Lemma stdout_only_bind {A B} (c : IO A) (k : A → IO B) :
  stdout_only c → (∀ x, stdout_only (k x)) → stdout_only (bind c k).
Proof.
  intros Hc Hk t. unfold bind. destruct (Hc t) as [l1 H1].
  destruct (c t) as [t1 [e|x]]; cbn [fst] in *.
  - by exists l1.
  - destruct (Hk x t1) as [l2 H2]. exists (l1 ++ l2).
    by rewrite H2, H1, map_app, app_assoc.
Qed.

Lemma find_files_stdout_only fs directory extensions :
  stdout_only (find_files fs directory extensions).
Proof.
  unfold find_files. destruct (negb _);
  repeat first
    [ apply stdout_only_ret | apply stdout_only_lift
    | apply stdout_only_print | apply stdout_only_bind; [|intros ?] ].
Qed.

Lemma process_directory_stdout_only fs oracle completion directory e
    extensions :
  stdout_only (process_directory fs oracle completion directory e extensions).
Proof.
  unfold process_directory. apply stdout_only_bind.
  - apply find_files_stdout_only.
  - intros files. case_bool_decide;
    repeat first
      [ apply stdout_only_ret | apply stdout_only_lift
      | apply stdout_only_print | apply stdout_only_bind; [|intros ?] ].
Qed.

Lemma print_stats_stdout_only format_1f repr_str sp sf :
  stdout_only (print_stats format_1f repr_str sp sf).
Proof.
  unfold print_stats.
  repeat first
    [ apply stdout_only_ret | apply stdout_only_lift
    | apply stdout_only_print | apply stdout_only_bind; [|intros ?] ].
Qed.

(** X8: scanning, running a batch and printing the statistics only print:
    whatever their outcome, the trace they leave is the trace they were
    given followed by lines of standard output, so no file is ever written
    outside [save_results]. *)
Theorem only_save_results_writes fs oracle completion format_1f repr_str
    directory e extensions sp sf :
  stdout_only (find_files fs directory extensions)
  ∧ stdout_only (process_directory fs oracle completion directory e extensions)
  ∧ stdout_only (print_stats format_1f repr_str sp sf).
Proof.
  split; [apply find_files_stdout_only|].
  split; [apply process_directory_stdout_only|apply print_stats_stdout_only].
Qed.

Lemma getitem_mk_total t p f ff :
  getitem (mk_stats t p f ff) "total" = ok (VInt t).
Proof. reflexivity. Qed.

Lemma getitem_mk_passed t p f ff :
  getitem (mk_stats t p f ff) "passed" = ok (VInt p).
Proof. reflexivity. Qed.

Lemma guarded_rate_int p t :
  guarded_rate (ok (VInt p)) (ok (VInt t))
  = ok (if bool_decide (t > 0) then RatePercent p t else RateZero).
Proof. unfold guarded_rate. cbn. by case_bool_decide. Qed.

Lemma passed_line_int format_1f repr_str p t :
  passed_line format_1f repr_str (ok (VInt p)) (ok (VInt t))
    (if bool_decide (t > 0) then RatePercent p t else RateZero)
  = ok (passed_text format_1f p t).
Proof.
  unfold passed_line, passed_text, rate_text. cbn.
  by case_bool_decide.
Qed.

(** X9: on two filled statistics dictionaries [print_stats] never raises
    and prints seven lines: the header, and for the should-parse set, the
    should-not-parse set and their sum the counts [passed/total] with the
    rate, which is the rendering of [passed / total * 100] when [total] is
    positive and [0.0] otherwise (no division takes place). *)
Theorem print_stats_filled format_1f repr_str t1 p1 f1 ff1 t2 p2 f2 ff2 t :
  print_stats format_1f repr_str (mk_stats t1 p1 f1 ff1)
    (mk_stats t2 p2 f2 ff2) t
  = (t ++ [Stdout (nl +:+ "===== Test Results =====");
           Stdout "Should parse successfully:";
           Stdout (passed_text format_1f p1 t1);
           Stdout "Should fail to parse:";
           Stdout (passed_text format_1f p2 t2);
           Stdout (nl +:+ "Overall:");
           Stdout (passed_text format_1f (p1 + p2) (t1 + t2))],
     ok ()).
Proof.
  unfold print_stats, bind, print, lift.
  rewrite !getitem_mk_total, !getitem_mk_passed.
  repeat (first [rewrite guarded_rate_int | rewrite passed_line_int];
          cbv beta iota delta [ok rbind py_add]).
  by rewrite <- !app_assoc.
Qed.

(* ===================================================================== *)
(** * Further properties of whole runs                                    *)
(* ===================================================================== *)

(** [main] as the sequence of its five stages. *)
Lemma main_eq fs oracle completion strftime format_1f elapsed_2f repr_str
    dir_pass dir_fail extensions t :
  main fs oracle completion strftime format_1f elapsed_2f repr_str
       dir_pass dir_fail extensions t
  = match process_directory fs oracle completion dir_pass true
            (Some extensions) (t ++ banner extensions) with
    | (t1, inl e) => (t1, inl e)
    | (t1, inr (rp, sp)) =>
      match process_directory fs oracle completion dir_fail false
              (Some extensions)
              (t1 ++ [Stdout (nl +:+
                        "Processing files that should fail to parse...")])
      with
      | (t2, inl e) => (t2, inl e)
      | (t2, inr (rf, sf)) =>
        match print_stats format_1f repr_str sp sf t2 with
        | (t3, inl e) => (t3, inl e)
        | (t3, inr _) =>
          match save_results strftime rp rf sp sf t3 with
          | (t4, inl e) => (t4, inl e)
          | (t4, inr _) =>
              (t4 ++ [Stdout (nl +:+ "Total runtime: " +:+ elapsed_2f +:+
                              " seconds")],
               ok ())
          end
        end
      end
    end.
Proof.
  unfold main, bind, banner. unfold print at 1 2 3. cbn [ok].
  rewrite <- !app_assoc. cbn [app].
  destruct (process_directory _ _ _ dir_pass _ _ _) as [t1 [e|[rp sp]]];
    [done|].
  unfold print at 1. cbn [ok].
  destruct (process_directory _ _ _ dir_fail _ _ _) as [t2 [e|[rf sf]]];
    [done|].
  destruct (print_stats _ _ _ _ _) as [t3 [e|[]]]; [done|].
  destruct (save_results _ _ _ _ _ _) as [t4 [e|r]]; [done|].
  reflexivity.
Qed.

Lemma print_stats_second_empty format_1f repr_str t1 p1 f1 ff1 t :
  print_stats format_1f repr_str (mk_stats t1 p1 f1 ff1) ∅ t
  = (t ++ [Stdout (nl +:+ "===== Test Results =====");
           Stdout "Should parse successfully:";
           Stdout (passed_text format_1f p1 t1)],
     raise (KeyError "total")).
Proof.
  unfold print_stats, bind, print, lift.
  rewrite !getitem_mk_total, !getitem_mk_passed.
  rewrite guarded_rate_int. cbv beta iota delta [ok].
  rewrite passed_line_int. cbv beta iota delta [ok].
  change (guarded_rate (getitem ∅ "passed") (getitem ∅ "total"))
    with (raise (A:=rate) (KeyError "total")).
  cbv beta iota delta [raise]. by rewrite <- !app_assoc.
Qed.

Lemma summary_mk t p f ff :
  summary (mk_stats t p f ff) = ok (mkSummary (VInt t) (VInt p) (VInt f)).
Proof. reflexivity. Qed.

(** A directory whose oracle processes all start: what [process_directory]
    returns and what it leaves on the trace. *)
Lemma process_directory_started fs oracle completion directory e extensions t :
  (∀ l, completion l ≡ₚ l) →
  (∀ fp, fp ∈ scanned fs directory extensions → oracle fp ≠ SpawnFailed) →
  ∃ lines rs st,
    process_directory fs oracle completion directory e extensions t
    = (t ++ map Stdout lines, ok (rs, st))
    ∧ ((scanned fs directory extensions = [] ∧ rs = [] ∧ st = ∅)
       ∨ (scanned fs directory extensions ≠ []
          ∧ map ok rs
            = map (test_file oracle)
                  (completion (tasks_of (scanned fs directory extensions) e))
          ∧ ∃ total passed failed ff, st = mk_stats total passed failed ff)).
Proof.
  intros Hperm Hstart.
  destruct (process_directory_stdout_only fs oracle completion directory e
              extensions t) as [lines Hl].
  exists lines. revert Hl. rewrite process_directory_eq. cbv zeta.
  case_bool_decide as Hf; cbn [fst]; intros ->.
  - exists [], ∅. split; [done|]. by left.
  - destruct (batch_all_started oracle completion _ e Hperm Hstart)
      as (rs & Hrs & _).
    rewrite Hrs. cbn [rbind ok]. eexists rs, _. split; [done|]. right.
    split; [done|]. split; [by apply collect_ok_inv in Hrs|].
    by eexists _, _, _, _.
Qed.

(** X10: when every oracle process can be started, [main] completes
    exactly when both directories yield files; as soon as one of them
    yields none, it stops in [print_stats] with [KeyError: 'total']. *)
Theorem main_completes_iff_files fs oracle completion strftime format_1f
    elapsed_2f repr_str dir_pass dir_fail extensions t :
  (∀ l, completion l ≡ₚ l) →
  (∀ fp, fp ∈ scanned fs dir_pass (Some extensions)
              ++ scanned fs dir_fail (Some extensions) →
         oracle fp ≠ SpawnFailed) →
  ∃ t',
    main fs oracle completion strftime format_1f elapsed_2f repr_str
         dir_pass dir_fail extensions t
    = (t',
       if bool_decide (scanned fs dir_pass (Some extensions) ≠ []
                       ∧ scanned fs dir_fail (Some extensions) ≠ [])
       then ok () else raise (KeyError "total")).
Proof.
  intros Hperm Hstart. rewrite main_eq.
  destruct (process_directory_started fs oracle completion dir_pass true
              (Some extensions) (t ++ banner extensions) Hperm)
    as (l1 & rp & sp & -> & Hp).
  { intros fp Hin. apply Hstart, elem_of_app. by left. }
  destruct (process_directory_started fs oracle completion dir_fail false
              (Some extensions)
              (((t ++ banner extensions) ++ map Stdout l1) ++
               [Stdout (nl +:+
                  "Processing files that should fail to parse...")]) Hperm)
    as (l2 & rf & sf & Hrun & Hf).
  { intros fp Hin. apply Hstart, elem_of_app. by right. }
  cbv beta iota delta [ok]. rewrite Hrun. cbv beta iota delta [ok].
  clear Hrun.
  destruct Hp as [(Hp & -> & ->)|(Hp & _ & tp & pp & fp & ffp & ->)].
  { rewrite print_stats_empty.
    rewrite bool_decide_eq_false_2 by (by intros [? _]). by eexists. }
  destruct Hf as [(Hf & -> & ->)|(Hf & _ & tf & pf & ff & fff & ->)].
  { rewrite print_stats_second_empty.
    rewrite bool_decide_eq_false_2 by (by intros [_ ?]). by eexists. }
  rewrite print_stats_filled, save_results_eq, !summary_mk.
  rewrite (bool_decide_eq_true_2 (_ ∧ _)) by (split; assumption).
  case_bool_decide; by eexists.
Qed.

Lemma main_completes_iff_files_witness :
  (∀ l : list (string * bool), id l ≡ₚ l)
  ∧ (∀ fp, fp ∈ scanned corpus_fs "corpus" (Some default_extensions)
                ++ scanned corpus_fs "nowhere" (Some default_extensions) →
           oracle_ts_js fp ≠ SpawnFailed)
  ∧ ∃ t',
      main corpus_fs oracle_ts_js id "20240102-030405" percent_1f "0.01"
           quoted "corpus" "nowhere" default_extensions []
      = (t', raise (KeyError "total")).
Proof.
  assert (Hperm : ∀ l : list (string * bool), id l ≡ₚ l) by reflexivity.
  assert (Hstart : ∀ fp,
            fp ∈ scanned corpus_fs "corpus" (Some default_extensions)
                 ++ scanned corpus_fs "nowhere" (Some default_extensions) →
            oracle_ts_js fp ≠ SpawnFailed).
  { intros fp _. unfold oracle_ts_js. by destruct (_ || _). }
  split; [exact Hperm|]. split; [exact Hstart|].
  exact (main_completes_iff_files corpus_fs oracle_ts_js id
           "20240102-030405" percent_1f "0.01" quoted "corpus" "nowhere"
           default_extensions [] Hperm Hstart).
Defined.

Lemma files_written_stdout lines : files_written (map Stdout lines) = [].
Proof.
  unfold files_written. induction lines as [|l lines IH]; [done|].
  cbn [map]. rewrite filter_cons_False; [done|]. cbn. tauto.
Qed.

Lemma files_written_app evs evs' :
  files_written (evs ++ evs') = files_written evs ++ files_written evs'.
Proof. apply filter_app. Qed.

Lemma files_written_report strftime s1 s2 records :
  files_written (report_events strftime s1 s2 records)
  = [FileWritten (report_name strftime) (mkReport strftime s1 s2 records)].
Proof.
  destruct (report_events_shape strftime s1 s2 records) as [pr ->].
  unfold files_written. rewrite filter_cons_True by (cbn; tauto).
  fold (files_written (map Stdout pr)). by rewrite files_written_stdout.
Qed.

(** A batch has a mismatching result exactly when the oracle ran on one of
    its files with a verdict other than the expected one. *)
Lemma batch_mismatch_iff oracle completion files e rs :
  (∀ l, completion l ≡ₚ l) →
  map ok rs = map (test_file oracle) (completion (tasks_of files e)) →
  mismatches rs ≠ []
  ↔ ∃ fp rc, fp ∈ files ∧ oracle fp = Exited rc
             ∧ (e = true ↔ rc ≠ 0).
Proof.
  intros Hperm E. split.
  - intros Hne. destruct (mismatches rs) as [|r ms] eqn:Hm; [done|].
    assert (Hr : r ∈ mismatches rs) by (rewrite Hm; left).
    apply list_elem_of_filter in Hr as [Hs Hr].
    apply list_elem_of_In, (in_map ok) in Hr. rewrite E in Hr.
    apply in_map_iff in Hr as ([fp e'] & Ht & Hin).
    apply list_elem_of_In in Hin. rewrite Hperm in Hin.
    apply elem_of_tasks_of in Hin as [Hin ->].
    apply test_file_ok_inv in Ht as (_ & _ & rc & Hrc & _ & Hsucc).
    cbn [fst snd] in *. exists fp, rc. split; [done|]. split; [done|].
    rewrite Hs in Hsucc. symmetry in Hsucc.
    apply bool_decide_eq_false in Hsucc.
    destruct e; case_bool_decide; naive_solver.
  - intros (fp & rc & Hin & Hrc & Hdis).
    assert (Ht : ok {| file_path := fp; expected_success := e;
                       actual_success := bool_decide (rc = 0);
                       success := bool_decide (e = bool_decide (rc = 0)) |}
                 ∈ map ok rs).
    { rewrite E, <- (test_file_exited oracle fp e rc Hrc).
      apply list_elem_of_In, in_map, list_elem_of_In.
      rewrite Hperm. by apply elem_of_tasks_of. }
    apply list_elem_of_In, in_map_iff in Ht as (r & [= ->] & Hr).
    apply list_elem_of_In in Hr.
    assert (Hm : {| file_path := fp; expected_success := e;
                    actual_success := bool_decide (rc = 0);
                    success := bool_decide (e = bool_decide (rc = 0)) |}
                 ∈ mismatches rs).
    { apply list_elem_of_filter. split; [|done]. cbn.
      apply bool_decide_eq_false. intros Heq. symmetry in Heq.
      destruct Hdis as [H1 H2]. destruct e.
      - apply bool_decide_eq_true in Heq. by apply H1.
      - apply bool_decide_eq_false in Heq. by specialize (H2 Heq). }
    intros Hnil. rewrite Hnil in Hm. by apply elem_of_nil in Hm.
Qed.

(** A run in which both directories yield files and every oracle process
    starts: the results of the two batches and the whole trace. *)
Lemma main_run_with_files fs oracle completion strftime format_1f
    elapsed_2f repr_str dir_pass dir_fail extensions t :
  (∀ l, completion l ≡ₚ l) →
  (∀ fp, fp ∈ scanned fs dir_pass (Some extensions)
              ++ scanned fs dir_fail (Some extensions) →
         oracle fp ≠ SpawnFailed) →
  scanned fs dir_pass (Some extensions) ≠ [] →
  scanned fs dir_fail (Some extensions) ≠ [] →
  ∃ lines rp rf s1 s2,
    map ok rp
    = map (test_file oracle)
          (completion (tasks_of (scanned fs dir_pass (Some extensions)) true))
    ∧ map ok rf
      = map (test_file oracle)
            (completion (tasks_of (scanned fs dir_fail (Some extensions))
                                  false))
    ∧ main fs oracle completion strftime format_1f elapsed_2f repr_str
           dir_pass dir_fail extensions t
      = (t ++ map Stdout lines
           ++ (if bool_decide (failed_records rp rf ≠ [])
               then report_events strftime s1 s2 (failed_records rp rf)
               else [])
           ++ [Stdout (nl +:+ "Total runtime: " +:+ elapsed_2f +:+
                       " seconds")],
         ok ()).
Proof.
  intros Hperm Hstart Hnp Hnf. rewrite main_eq.
  destruct (process_directory_started fs oracle completion dir_pass true
              (Some extensions) (t ++ banner extensions) Hperm)
    as (l1 & rp & sp & -> & Hp).
  { intros fp Hin. apply Hstart, elem_of_app. by left. }
  destruct (process_directory_started fs oracle completion dir_fail false
              (Some extensions)
              (((t ++ banner extensions) ++ map Stdout l1) ++
               [Stdout (nl +:+
                  "Processing files that should fail to parse...")]) Hperm)
    as (l2 & rf & sf & Hrun & Hf).
  { intros fp Hin. apply Hstart, elem_of_app. by right. }
  cbv beta iota delta [ok]. rewrite Hrun. cbv beta iota delta [ok].
  clear Hrun.
  destruct Hp as [(Hp & _)|(_ & Erp & tp & pp & fp & ffp & ->)]; [done|].
  destruct Hf as [(Hf & _)|(_ & Erf & tf & pf & ff & fff & ->)]; [done|].
  rewrite print_stats_filled, save_results_eq, !summary_mk.
  exists (["Tree-sitter Grammar Tester";
           "Testing file extensions: " +:+ comma_join extensions;
           nl +:+ "Processing files that should parse successfully..."]
          ++ l1
          ++ [nl +:+ "Processing files that should fail to parse..."]
          ++ l2
          ++ [nl +:+ "===== Test Results =====";
              "Should parse successfully:";
              passed_text format_1f pp tp;
              "Should fail to parse:";
              passed_text format_1f pf tf;
              nl +:+ "Overall:";
              passed_text format_1f (pp + pf) (tp + tf)]),
         rp, rf,
         (mkSummary (VInt tp) (VInt pp) (VInt fp)),
         (mkSummary (VInt tf) (VInt pf) (VInt ff)).
  split; [exact Erp|]. split; [exact Erf|].
  unfold banner. case_bool_decide; cbv beta iota delta [ok].
  - f_equal. rewrite !map_app. cbn [map]. rewrite <- !app_assoc.
    cbn [app]. reflexivity.
  - f_equal. rewrite !map_app. cbn [map]. rewrite <- !app_assoc.
    cbn [app]. reflexivity.
Qed.

(** X11: in a run in which both directories yield files and every oracle
    process starts, [main] completes, and it writes a report file exactly
    when the oracle rejected a file of the should-parse directory or
    accepted a file of the should-not-parse directory; it then writes
    exactly one file, named after the time stamp, and none otherwise. *)
Theorem main_report_iff_disagreement fs oracle completion strftime format_1f
    elapsed_2f repr_str dir_pass dir_fail extensions t :
  (∀ l, completion l ≡ₚ l) →
  (∀ fp, fp ∈ scanned fs dir_pass (Some extensions)
              ++ scanned fs dir_fail (Some extensions) →
         oracle fp ≠ SpawnFailed) →
  scanned fs dir_pass (Some extensions) ≠ [] →
  scanned fs dir_fail (Some extensions) ≠ [] →
  ∃ evs content,
    main fs oracle completion strftime format_1f elapsed_2f repr_str
         dir_pass dir_fail extensions t
    = (t ++ evs, ok ())
    ∧ (((∃ fp, fp ∈ scanned fs dir_pass (Some extensions)
               ∧ rejected oracle fp)
        ∨ (∃ fp, fp ∈ scanned fs dir_fail (Some extensions)
                 ∧ accepted oracle fp)) →
       files_written evs = [FileWritten (report_name strftime) content])
    ∧ (¬ ((∃ fp, fp ∈ scanned fs dir_pass (Some extensions)
                 ∧ rejected oracle fp)
          ∨ (∃ fp, fp ∈ scanned fs dir_fail (Some extensions)
                   ∧ accepted oracle fp)) →
       files_written evs = []).
Proof.
  intros Hperm Hstart Hnp Hnf.
  destruct (main_run_with_files fs oracle completion strftime format_1f
              elapsed_2f repr_str dir_pass dir_fail extensions t
              Hperm Hstart Hnp Hnf)
    as (lines & rp & rf & s1 & s2 & Erp & Erf & ->).
  pose proof (batch_mismatch_iff _ _ _ _ _ Hperm Erp) as Hmp.
  pose proof (batch_mismatch_iff _ _ _ _ _ Hperm Erf) as Hmf.
  assert (Hdis : failed_records rp rf ≠ []
                 ↔ (∃ fp, fp ∈ scanned fs dir_pass (Some extensions)
                          ∧ rejected oracle fp)
                   ∨ (∃ fp, fp ∈ scanned fs dir_fail (Some extensions)
                            ∧ accepted oracle fp)).
  { rewrite failed_records_nil. unfold mismatches at 1.
    rewrite filter_app. fold (mismatches rp) (mismatches rf). split.
    - intros Hne. destruct (decide (mismatches rp = [])) as [Hp|Hp].
      + right. rewrite Hp in Hne. cbn [app] in Hne.
        apply Hmf in Hne as (fp & rc & Hin & Hrc & [_ H2]).
        exists fp. split; [done|]. unfold accepted.
        destruct (decide (rc = 0)) as [->|Hrc0]; [done|].
        by specialize (H2 Hrc0).
      + left. apply Hmp in Hp as (fp & rc & Hin & Hrc & [H1 _]).
        exists fp. split; [done|]. exists rc. split; [done|]. by apply H1.
    - intros [(fp & Hin & rc & Hrc & Hnz)|(fp & Hin & Hacc)].
      + assert (Hp : mismatches rp ≠ []).
        { apply Hmp. exists fp, rc. by repeat split. }
        intros [H _]%app_eq_nil. done.
      + assert (Hf : mismatches rf ≠ []).
        { apply Hmf. exists fp, 0. split; [done|]. split; [done|].
          split; [done|]. intros H. by destruct H. }
        intros [_ H]%app_eq_nil. done. }
  eexists _, (mkReport strftime s1 s2 (failed_records rp rf)).
  split; [reflexivity|].
  rewrite !files_written_app, files_written_stdout. cbn [app].
  change [Stdout ?l] with (map Stdout [l]). rewrite files_written_stdout.
  rewrite app_nil_r. split.
  - intros H. rewrite bool_decide_eq_true_2 by (by apply Hdis).
    apply files_written_report.
  - intros H. rewrite bool_decide_eq_false_2; [done|].
    intros Hne. by apply H, Hdis.
Qed.

Lemma main_report_iff_disagreement_witness :
  (∀ l : list (string * bool), id l ≡ₚ l)
  ∧ (∀ fp, fp ∈ scanned corpus_fs "corpus" (Some default_extensions)
                ++ scanned corpus_fs "bad" (Some default_extensions) →
           oracle_ts_js fp ≠ SpawnFailed)
  ∧ scanned corpus_fs "corpus" (Some default_extensions) ≠ []
  ∧ scanned corpus_fs "bad" (Some default_extensions) ≠ []
  ∧ (∃ fp, fp ∈ scanned corpus_fs "corpus" (Some default_extensions)
           ∧ rejected oracle_ts_js fp)
  ∧ ∃ evs content,
      main corpus_fs oracle_ts_js id "20240102-030405" percent_1f "0.01"
           quoted "corpus" "bad" default_extensions []
      = ([] ++ evs, ok ())
      ∧ files_written evs
        = [FileWritten (report_name "20240102-030405") content].
Proof.
  assert (Hperm : ∀ l : list (string * bool), id l ≡ₚ l) by reflexivity.
  assert (Hstart : ∀ fp,
            fp ∈ scanned corpus_fs "corpus" (Some default_extensions)
                 ++ scanned corpus_fs "bad" (Some default_extensions) →
            oracle_ts_js fp ≠ SpawnFailed).
  { intros fp _. unfold oracle_ts_js. by destruct (_ || _). }
  assert (Hnp : scanned corpus_fs "corpus" (Some default_extensions) ≠ [])
    by (vm_compute; discriminate).
  assert (Hnf : scanned corpus_fs "bad" (Some default_extensions) ≠ [])
    by (vm_compute; discriminate).
  assert (Hrej : ∃ fp,
            fp ∈ scanned corpus_fs "corpus" (Some default_extensions)
            ∧ rejected oracle_ts_js fp).
  { exists "corpus/sub/b.tsx". split.
    - apply (bool_decide_unpack _). vm_compute. exact I.
    - exists 1. split; [reflexivity|discriminate]. }
  split; [exact Hperm|]. split; [exact Hstart|]. split; [exact Hnp|].
  split; [exact Hnf|]. split; [exact Hrej|].
  destruct (main_report_iff_disagreement corpus_fs oracle_ts_js id
              "20240102-030405" percent_1f "0.01" quoted "corpus" "bad"
              default_extensions [] Hperm Hstart Hnp Hnf)
    as (evs & content & Hrun & Hyes & _).
  exists evs, content. split; [exact Hrun|]. apply Hyes. by left.
Defined.



(* ===================================================================== *)
(** * Further properties of the report writer                             *)
(* ===================================================================== *)

(** X13: the name of the report file determines the time stamp: two runs
    of [save_results] write to the same file only when they read the same
    time stamp (the stamp has a resolution of one second). *)
Theorem report_name_inj strftime strftime' rp rf sp sf rp' rf' sp' sf'
    t t' u u' name :
  save_results strftime rp rf sp sf t = (u, ok (Some name)) →
  save_results strftime' rp' rf' sp' sf' t' = (u', ok (Some name)) →
  strftime = strftime'.
Proof.
  intros (_ & _ & _ & _ & _ & -> & _)%save_results_some_inv
         (_ & _ & _ & _ & _ & E & _)%save_results_some_inv.
  unfold report_name in E. apply (f_equal chars) in E.
  rewrite !chars_app in E.
  apply app_inv_head, app_inv_tail in E. by apply chars_inj.
Qed.

Lemma report_name_inj_witness :
  ∃ u u',
    save_results "20240102-030405" [fail_a] []
      (mk_stats 1 0 1 ["a.ts"]) (mk_stats 0 0 0 []) [] 
    = (u, ok (Some (report_name "20240102-030405")))
    ∧ save_results "20240102-030405" [] [wrong_pass]
        (mk_stats 0 0 0 []) (mk_stats 1 0 1 ["c.js"]) []
      = (u', ok (Some (report_name "20240102-030405")))
    ∧ "20240102-030405" = "20240102-030405".
Proof.
  eexists _, _.
  assert (H : ∀ u u',
    save_results "20240102-030405" [fail_a] []
      (mk_stats 1 0 1 ["a.ts"]) (mk_stats 0 0 0 []) []
    = (u, ok (Some (report_name "20240102-030405"))) →
    save_results "20240102-030405" [] [wrong_pass]
      (mk_stats 0 0 0 []) (mk_stats 1 0 1 ["c.js"]) []
    = (u', ok (Some (report_name "20240102-030405"))) →
    "20240102-030405" = "20240102-030405")
    by (intros u u'; apply report_name_inj).
  split; [vm_compute; reflexivity|]. split; [vm_compute; reflexivity|].
  eapply H; vm_compute; reflexivity.
Defined.

(** X14: when some result mismatches and one of the two statistics
    dictionaries lacks ["total"], ["passed"] or ["failed"], [save_results]
    raises [KeyError] for a missing key before any effect: no file is
    written and nothing is printed. *)
Theorem save_results_missing_key strftime rp rf sp sf t :
  mismatches (rp ++ rf) ≠ [] →
  ¬ (has_summary sp ∧ has_summary sf) →
  ∃ key, key ∈ ["total"; "passed"; "failed"]
         ∧ (sp !! key = None ∨ sf !! key = None)
         ∧ save_results strftime rp rf sp sf t = (t, raise (KeyError key)).
Proof.
  intros Hm Hno. rewrite save_results_eq.
  rewrite bool_decide_eq_true_2 by (by rewrite failed_records_nil).
  unfold summary, getitem.
  destruct (sp !! "total") as [a1|] eqn:E1;
    [|exists "total"; split; [set_solver|by split; [left|]]].
  destruct (sp !! "passed") as [b1|] eqn:E2;
    [|exists "passed"; split; [set_solver|by split; [left|]]].
  destruct (sp !! "failed") as [c1|] eqn:E3;
    [|exists "failed"; split; [set_solver|by split; [left|]]].
  cbn [rbind ok raise].
  destruct (sf !! "total") as [a2|] eqn:F1;
    [|exists "total"; split; [set_solver|by split; [right|]]].
  destruct (sf !! "passed") as [b2|] eqn:F2;
    [|exists "passed"; split; [set_solver|by split; [right|]]].
  destruct (sf !! "failed") as [c2|] eqn:F3;
    [|exists "failed"; split; [set_solver|by split; [right|]]].
  destruct Hno. unfold has_summary. rewrite E1, E2, E3, F1, F2, F3.
  by repeat split.
Qed.

Lemma save_results_missing_key_witness :
  mismatches ([] ++ [wrong_pass]) ≠ []
  ∧ ¬ (has_summary ∅ ∧ has_summary (mk_stats 1 0 1 ["c.js"]))
  ∧ ∃ key, key ∈ ["total"; "passed"; "failed"]
           ∧ ((∅ : dict) !! key = None
              ∨ mk_stats 1 0 1 ["c.js"] !! key = None)
           ∧ save_results "20240102-030405" [] [wrong_pass] ∅
               (mk_stats 1 0 1 ["c.js"]) []
             = ([], raise (KeyError key)).
Proof.
  assert (Hm : mismatches ([] ++ [wrong_pass]) ≠ []) by discriminate.
  assert (Hno : ¬ (has_summary ∅ ∧ has_summary (mk_stats 1 0 1 ["c.js"]))).
  { intros [([x Hx] & _) _]. discriminate. }
  split; [exact Hm|]. split; [exact Hno|].
  exact (save_results_missing_key "20240102-030405" [] [wrong_pass] ∅
           (mk_stats 1 0 1 ["c.js"]) [] Hm Hno).
Defined.

(** X15: the report [save_results] writes carries the time stamp it read,
    is named [tree-sitter-test-report-<stamp>.json], and copies [total],
    [passed] and [failed] of each statistics dictionary as they are (the
    [failed_files] entry is left out). *)
Theorem report_copies_stats strftime rp rf sp sf t evs name content :
  save_results strftime rp rf sp sf t = (t ++ evs, ok (Some name)) →
  FileWritten name content ∈ evs →
  name = "tree-sitter-test-report-" +:+ strftime +:+ ".json"
  ∧ timestamp content = strftime
  ∧ sp !! "total" = Some (sum_total (stats_should_pass content))
  ∧ sp !! "passed" = Some (sum_passed (stats_should_pass content))
  ∧ sp !! "failed" = Some (sum_failed (stats_should_pass content))
  ∧ sf !! "total" = Some (sum_total (stats_should_fail content))
  ∧ sf !! "passed" = Some (sum_passed (stats_should_fail content))
  ∧ sf !! "failed" = Some (sum_failed (stats_should_fail content)).
Proof.
  intros (s1 & s2 & H1 & H2 & _ & -> & Ht)%save_results_some_inv Hin.
  apply app_inv_head in Ht as ->.
  apply report_events_written in Hin as [_ ->].
  apply summary_ok_inv in H1 as (? & ? & ?), H2 as (? & ? & ?).
  by repeat split.
Qed.

Lemma report_copies_stats_witness :
  ∃ evs content,
    save_results "20240102-030405" [fail_a; pass_c] []
      (mk_stats 2 1 1 ["a.ts"]) (mk_stats 0 0 0 []) []
    = ([] ++ evs, ok (Some (report_name "20240102-030405")))
    ∧ FileWritten (report_name "20240102-030405") content ∈ evs
    ∧ timestamp content = "20240102-030405"
    ∧ sum_total (stats_should_pass content) = VInt 2
    ∧ sum_failed (stats_should_pass content) = VInt 1.
Proof.
  eexists _, _.
  split; [vm_compute; reflexivity|]. split; [left|].
  edestruct (report_copies_stats "20240102-030405" [fail_a; pass_c] []
               (mk_stats 2 1 1 ["a.ts"]) (mk_stats 0 0 0 []) [])
    as (_ & H2 & _); [vm_compute; reflexivity|left|].
  split; [exact H2|]. split; reflexivity.
Defined.

(* ===================================================================== *)
(** * Further properties of [process_directory]                           *)
(* ===================================================================== *)

(** X16: for a directory in which [find_files] finds nothing,
    [process_directory] starts no oracle process: it prints the
    [No files found] line and returns an empty result list with the empty
    dictionary, whatever the oracle would do. *)
Theorem process_directory_without_files fs oracle completion directory e
    extensions t t0 :
  find_files fs directory extensions t = (t0, ok []) →
  process_directory fs oracle completion directory e extensions t
  = (t0 ++ [Stdout ("No files found in " +:+ directory)], ok ([], ∅)).
Proof.
  intros Hfind. rewrite process_directory_eq. cbv zeta. rewrite Hfind.
  rewrite find_files_eq in Hfind. injection Hfind as _ ->.
  by rewrite bool_decide_eq_true_2.
Qed.

Lemma process_directory_without_files_witness :
  find_files corpus_fs "corpus" (Some [".py"]) [] = ([], ok [])
  ∧ process_directory corpus_fs oracle_flaky id "corpus" true
      (Some [".py"]) []
    = ([] ++ [Stdout ("No files found in " +:+ "corpus")], ok ([], ∅)).
Proof.
  assert (H : find_files corpus_fs "corpus" (Some [".py"]) [] = ([], ok []))
    by (vm_compute; reflexivity).
  split; [exact H|].
  exact (process_directory_without_files corpus_fs oracle_flaky id "corpus"
           true (Some [".py"]) [] [] H).
Defined.

Lemma map_ok_Permutation {A} (xs ys : list A) :
  map (@ok A) xs ≡ₚ map ok ys → xs ≡ₚ ys.
Proof.
  intros H. symmetry in H.
  apply Permutation_map_inv in H as (zs & E & Hp).
  assert (zs = ys) as ->; [|done].
  clear -E. revert zs E. induction ys as [|y ys IH]; intros [|z zs] E;
    try discriminate; [done|].
  cbn in E. injection E as -> E. f_equal. by apply IH.
Qed.

(** X17: the order in which the pool completes the tasks does not change
    the outcome of a batch beyond the order of its lists: two runs of
    [process_directory] on the same directory that differ only in the
    completion order return result lists that are permutations of each
    other and statistics with the same [total], [passed] and [failed] and
    with [failed_files] lists that are permutations of each other. *)
Theorem process_directory_order_independent fs oracle completion completion'
    directory e extensions t t1 t2 rs rs' stats stats' :
  (∀ l, completion l ≡ₚ l) →
  (∀ l, completion' l ≡ₚ l) →
  process_directory fs oracle completion directory e extensions t
  = (t1, ok (rs, stats)) →
  process_directory fs oracle completion' directory e extensions t
  = (t2, ok (rs', stats')) →
  t1 = t2 ∧ rs ≡ₚ rs'
  ∧ (stats = ∅ ∧ stats' = ∅
     ∨ ∃ total passed failed ff ff',
         stats = mk_stats total passed failed ff
         ∧ stats' = mk_stats total passed failed ff'
         ∧ ff ≡ₚ ff').
Proof.
  intros Hperm Hperm'. rewrite !process_directory_eq. cbv zeta.
  case_bool_decide as Hf.
  - intros [= <- <- <-] [= <- <- <-]. split; [done|]. split; [done|].
    by left.
  - destruct (collect (map _ (completion _))) as [x|r1] eqn:E1;
      cbn [rbind ok]; [discriminate|].
    destruct (collect (map _ (completion' _))) as [x|r2] eqn:E2;
      cbn [rbind ok]; [discriminate|].
    intros [= <- -> <-] [= <- -> <-].
    apply collect_ok_inv in E1, E2.
    assert (Hrs : rs ≡ₚ rs').
    { apply map_ok_Permutation. rewrite <- E1, <- E2.
      apply Permutation_map. by rewrite Hperm, Hperm'. }
    split; [done|]. split; [done|]. right.
    eexists _, _, _, _, _. split; [reflexivity|]. split.
    + by rewrite <- (Permutation_length (agreements_Permutation _ _ Hrs)),
           <- (Permutation_length (mismatches_Permutation _ _ Hrs)).
    + apply Permutation_map. by apply mismatches_Permutation.
Qed.

Lemma process_directory_order_independent_witness :
  (∀ l : list (string * bool), id l ≡ₚ l)
  ∧ (∀ l : list (string * bool), reverse l ≡ₚ l)
  ∧ process_directory corpus_fs oracle_ts_js id "bad" true None []
    = ([Stdout "Testing 2 files in bad"],
       ok ([mkTaskResult "bad/c.js" true true true;
            mkTaskResult "bad/d.js" true true true],
           mk_stats 2 2 0 []))
  ∧ process_directory corpus_fs oracle_ts_js reverse "bad" true None []
    = ([Stdout "Testing 2 files in bad"],
       ok ([mkTaskResult "bad/d.js" true true true;
            mkTaskResult "bad/c.js" true true true],
           mk_stats 2 2 0 []))
  ∧ [mkTaskResult "bad/c.js" true true true;
     mkTaskResult "bad/d.js" true true true]
    ≡ₚ [mkTaskResult "bad/d.js" true true true;
        mkTaskResult "bad/c.js" true true true].
Proof.
  assert (Hperm : ∀ l : list (string * bool), id l ≡ₚ l) by reflexivity.
  assert (Hperm' : ∀ l : list (string * bool), reverse l ≡ₚ l)
    by (intros l; apply reverse_Permutation).
  assert (H1 : process_directory corpus_fs oracle_ts_js id "bad" true None []
               = ([Stdout "Testing 2 files in bad"],
                  ok ([mkTaskResult "bad/c.js" true true true;
                       mkTaskResult "bad/d.js" true true true],
                      mk_stats 2 2 0 [])))
    by (vm_compute; reflexivity).
  assert (H2 : process_directory corpus_fs oracle_ts_js reverse "bad" true
                 None []
               = ([Stdout "Testing 2 files in bad"],
                  ok ([mkTaskResult "bad/d.js" true true true;
                       mkTaskResult "bad/c.js" true true true],
                      mk_stats 2 2 0 [])))
    by (vm_compute; reflexivity).
  split; [exact Hperm|]. split; [exact Hperm'|]. split; [exact H1|].
  split; [exact H2|].
  exact (proj1 (proj2 (process_directory_order_independent corpus_fs
                         oracle_ts_js id reverse "bad" true None [] _ _ _ _
                         _ _ Hperm Hperm' H1 H2))).
Defined.
